(** * WebSocketContext: the chat session's connection manager

    A shallow embedding of [frontend/src/context/WebSocketContext.tsx]:
    the provider's React state and refs, the browser objects its closures
    hold (WebSocket instances, timers, the promise returned by [connect]),
    and the handlers [connect], [disconnect], [sendMessage], [ws.onopen],
    [ws.onmessage], [ws.onerror], [ws.onclose] and the timer callbacks.

    Conventions of the embedding:
    - a JavaScript string is a [string]; one character stands for one
      UTF-16 code unit, so [String.length] is [.length];
    - [null]/[undefined] is [None];
    - a setter takes effect at once: handlers run to completion on one
      event loop and no handler reads a cell it has just written;
    - the only cell a closure reads is [socket]. The presentation layer
      calls [connect], [disconnect] and [sendMessage] of the latest
      render, which read the cell at its latest value; the [connect]
      that a reconnect timer calls is the one of the render that made
      the socket, and reads the [socket] of that render;
    - a promise continuation runs where the promise settles: nothing else
      runs between a handler and its microtasks. *)

From Stdlib Require Import String Ascii.
From stdpp Require Import gmap strings list fin_maps.

(** ** Strings as the source uses them *)

(** ["abc" === data] *)
Definition str_eq (a b : string) : bool := String.eqb a b.
Infix "===" := str_eq (at level 65, no associativity).

(** [data.startsWith(p)] *)
Definition startsWith (data p : string) : bool := String.prefix p data.

(** [data.slice(n)], for [0 <= n] *)
Definition slice_from (n : nat) (data : string) : string :=
  String.substring n (String.length data - n) data.

(** [data.slice(0, n)] *)
Definition slice_to (n : nat) (data : string) : string :=
  String.substring 0 n data.

(** [SAFE_PARAM_REGEX = /^[a-zA-Z0-9_.-]+$/] *)
Definition safe_char (c : ascii) : bool :=
  let n := nat_of_ascii c in
  ((97 <=? n) && (n <=? 122)) || ((65 <=? n) && (n <=? 90))
  || ((48 <=? n) && (n <=? 57))
  || (n =? 95) || (n =? 46) || (n =? 45).

Fixpoint all_safe (s : string) : bool :=
  match s with
  | EmptyString => true
  | String c rest => safe_char c && all_safe rest
  end.

Definition SAFE_PARAM_REGEX_test (s : string) : bool :=
  match s with
  | EmptyString => false
  | String _ _ => all_safe s
  end.

Definition MAX_MESSAGE_LENGTH : nat := 10000.

(** ** Values *)

(** What [JSON.parse] returns. A number keeps its source text. *)
#[warnings="-register-all"]
Inductive JSON : Type :=
  | JNull
  | JBool (b : bool)
  | JNumber (lexeme : string)
  | JString (s : string)
  | JArray (items : list JSON)
  | JObject (members : list (string * JSON)).

(** [Array.isArray(parsed)], giving the elements. *)
Definition isArray (j : JSON) : option (list JSON) :=
  match j with
  | JArray items => Some items
  | _ => None
  end.

(** A parsed value stored in a nullable cell: JSON [null] is [null]. *)
Definition nullable (j : JSON) : option JSON :=
  match j with
  | JNull => None
  | _ => Some j
  end.

(** [connParamsRef.current]: [{ owner, repo, githubToken }] *)
Record ConnParams : Type := mkConnParams {
  owner : string;
  repo : string;
  githubToken : option string
}.

(** ** Browser objects *)

Inductive ReadyState : Type := CONNECTING | OPEN | CLOSING | CLOSED.

(** The promise [connect] returns. *)
Inductive PromiseState : Type := Pending | Fulfilled | Rejected.

(** Who consumes that promise: the caller of [connect], or the
    [.then(...).catch(...)] chain of the reconnect timer in [ws.onclose]. *)
Inductive Waiter : Type := Caller | ReconnectChain.

(** One [new WebSocket(wsUrl)] together with what the closures of its
    handlers captured in [connect]: the [timeout] handle, the
    [resolve]/[reject] pair of the promise, and the [connect] they call
    back. [target] stands for [wsUrl], which is built from these
    parameters and a fresh [nanoid(10)]. [closure_socket] is the value
    the [socket] cell had in the render whose [connect] made this
    socket: the reconnect timer armed by [ws.onclose] calls that same
    [connect], which reads this value at [if (socket)], not the cell. *)
Record WebSocket : Type := mkWebSocket {
  readyState : ReadyState;
  sent : list string;
  target : ConnParams;
  timeout : nat;
  promise : PromiseState;
  waiter : Waiter;
  closure_socket : option nat
}.

(** What a pending timer runs: the connect timeout or the heartbeat of
    socket [ws], or the reconnect armed by the [onclose] of socket
    [ws]. *)
Inductive Callback : Type :=
  | ConnectTimeout (ws : nat)
  | PingTick (ws : nat)
  | ReconnectTick (ws : nat).

(** [setTimeout(cb, delay)] ([repeating = false]) or
    [setInterval(cb, delay)] ([repeating = true]); [delay] in ms. *)
Record Timer : Type := mkTimer {
  callback : Callback;
  delay : N;
  repeating : bool
}.

(** ** What statusMessage can hold

    The cell is declared [string | null], and the frames the protocol
    defines keep it so. But [statusMap[status]] reads an object literal:
    a key that names a member of [Object.prototype] finds that member,
    and [setStatusMessage] is then handed a function, which React runs
    as an updater on the previous value (with no receiver), or, for
    [__proto__], the prototype object itself. So the cell can also hold
    [false], an object ([{}], a [String] or [Boolean] wrapper,
    [Object.prototype]), or no value at all because the updater threw
    ([UpdaterThrows]). *)
Inductive StatusValue : Type :=
  | StatusText (s : string)
  | StatusFalse
  | EmptyObject
  | StringObject (s : string)
  | BooleanObject
  | ObjectPrototype
  | UpdaterThrows.

(** ** The provider *)

(** The eleven [useState] cells, the six [useRef] cells, and the host:
    every WebSocket created so far (a handle is its index), the pending
    timers by handle, and the next timer handle. Handles start at 1, so a
    handle is truthy. *)
Record Provider : Type := mkProvider {
  socket : option nat;
  isConnected : bool;
  isProcessing : bool;
  lastMessage : option string;
  suggestions : list JSON;
  repoMetadata : option JSON;
  isReconnecting : bool;
  statusMessage : option StatusValue;
  streamingContent : option string;
  isStreaming : bool;
  errorMessage : option string;
  connectingRef : bool;
  pingIntervalRef : option nat;
  intentionalCloseRef : bool;
  reconnectAttemptsRef : nat;
  reconnectTimeoutRef : option nat;
  connParamsRef : option ConnParams;
  sockets : list WebSocket;
  timers : gmap nat Timer;
  nextTimer : nat
}.

Definition setSocket (v : option nat) (s : Provider) : Provider :=
  mkProvider v (isConnected s) (isProcessing s) (lastMessage s)
    (suggestions s) (repoMetadata s) (isReconnecting s) (statusMessage s)
    (streamingContent s) (isStreaming s) (errorMessage s) (connectingRef s)
    (pingIntervalRef s) (intentionalCloseRef s) (reconnectAttemptsRef s)
    (reconnectTimeoutRef s) (connParamsRef s) (sockets s) (timers s)
    (nextTimer s).

Definition setIsConnected (v : bool) (s : Provider) : Provider :=
  mkProvider (socket s) v (isProcessing s) (lastMessage s) (suggestions s)
    (repoMetadata s) (isReconnecting s) (statusMessage s) (streamingContent s)
    (isStreaming s) (errorMessage s) (connectingRef s) (pingIntervalRef s)
    (intentionalCloseRef s) (reconnectAttemptsRef s) (reconnectTimeoutRef s)
    (connParamsRef s) (sockets s) (timers s) (nextTimer s).

Definition setIsProcessing (v : bool) (s : Provider) : Provider :=
  mkProvider (socket s) (isConnected s) v (lastMessage s) (suggestions s)
    (repoMetadata s) (isReconnecting s) (statusMessage s) (streamingContent s)
    (isStreaming s) (errorMessage s) (connectingRef s) (pingIntervalRef s)
    (intentionalCloseRef s) (reconnectAttemptsRef s) (reconnectTimeoutRef s)
    (connParamsRef s) (sockets s) (timers s) (nextTimer s).

Definition setLastMessage (v : option string) (s : Provider) : Provider :=
  mkProvider (socket s) (isConnected s) (isProcessing s) v (suggestions s)
    (repoMetadata s) (isReconnecting s) (statusMessage s) (streamingContent s)
    (isStreaming s) (errorMessage s) (connectingRef s) (pingIntervalRef s)
    (intentionalCloseRef s) (reconnectAttemptsRef s) (reconnectTimeoutRef s)
    (connParamsRef s) (sockets s) (timers s) (nextTimer s).

Definition setSuggestions (v : list JSON) (s : Provider) : Provider :=
  mkProvider (socket s) (isConnected s) (isProcessing s) (lastMessage s) v
    (repoMetadata s) (isReconnecting s) (statusMessage s) (streamingContent s)
    (isStreaming s) (errorMessage s) (connectingRef s) (pingIntervalRef s)
    (intentionalCloseRef s) (reconnectAttemptsRef s) (reconnectTimeoutRef s)
    (connParamsRef s) (sockets s) (timers s) (nextTimer s).

Definition setRepoMetadata (v : option JSON) (s : Provider) : Provider :=
  mkProvider (socket s) (isConnected s) (isProcessing s) (lastMessage s)
    (suggestions s) v (isReconnecting s) (statusMessage s)
    (streamingContent s) (isStreaming s) (errorMessage s) (connectingRef s)
    (pingIntervalRef s) (intentionalCloseRef s) (reconnectAttemptsRef s)
    (reconnectTimeoutRef s) (connParamsRef s) (sockets s) (timers s)
    (nextTimer s).

Definition setIsReconnecting (v : bool) (s : Provider) : Provider :=
  mkProvider (socket s) (isConnected s) (isProcessing s) (lastMessage s)
    (suggestions s) (repoMetadata s) v (statusMessage s) (streamingContent s)
    (isStreaming s) (errorMessage s) (connectingRef s) (pingIntervalRef s)
    (intentionalCloseRef s) (reconnectAttemptsRef s) (reconnectTimeoutRef s)
    (connParamsRef s) (sockets s) (timers s) (nextTimer s).

Definition setStatusMessage (v : option StatusValue) (s : Provider) :
    Provider :=
  mkProvider (socket s) (isConnected s) (isProcessing s) (lastMessage s)
    (suggestions s) (repoMetadata s) (isReconnecting s) v (streamingContent s)
    (isStreaming s) (errorMessage s) (connectingRef s) (pingIntervalRef s)
    (intentionalCloseRef s) (reconnectAttemptsRef s) (reconnectTimeoutRef s)
    (connParamsRef s) (sockets s) (timers s) (nextTimer s).

Definition setStreamingContent (v : option string) (s : Provider) : Provider :=
  mkProvider (socket s) (isConnected s) (isProcessing s) (lastMessage s)
    (suggestions s) (repoMetadata s) (isReconnecting s) (statusMessage s) v
    (isStreaming s) (errorMessage s) (connectingRef s) (pingIntervalRef s)
    (intentionalCloseRef s) (reconnectAttemptsRef s) (reconnectTimeoutRef s)
    (connParamsRef s) (sockets s) (timers s) (nextTimer s).

Definition setIsStreaming (v : bool) (s : Provider) : Provider :=
  mkProvider (socket s) (isConnected s) (isProcessing s) (lastMessage s)
    (suggestions s) (repoMetadata s) (isReconnecting s) (statusMessage s)
    (streamingContent s) v (errorMessage s) (connectingRef s)
    (pingIntervalRef s) (intentionalCloseRef s) (reconnectAttemptsRef s)
    (reconnectTimeoutRef s) (connParamsRef s) (sockets s) (timers s)
    (nextTimer s).

Definition setErrorMessage (v : option string) (s : Provider) : Provider :=
  mkProvider (socket s) (isConnected s) (isProcessing s) (lastMessage s)
    (suggestions s) (repoMetadata s) (isReconnecting s) (statusMessage s)
    (streamingContent s) (isStreaming s) v (connectingRef s)
    (pingIntervalRef s) (intentionalCloseRef s) (reconnectAttemptsRef s)
    (reconnectTimeoutRef s) (connParamsRef s) (sockets s) (timers s)
    (nextTimer s).

Definition set_connectingRef (v : bool) (s : Provider) : Provider :=
  mkProvider (socket s) (isConnected s) (isProcessing s) (lastMessage s)
    (suggestions s) (repoMetadata s) (isReconnecting s) (statusMessage s)
    (streamingContent s) (isStreaming s) (errorMessage s) v
    (pingIntervalRef s) (intentionalCloseRef s) (reconnectAttemptsRef s)
    (reconnectTimeoutRef s) (connParamsRef s) (sockets s) (timers s)
    (nextTimer s).

Definition set_pingIntervalRef (v : option nat) (s : Provider) : Provider :=
  mkProvider (socket s) (isConnected s) (isProcessing s) (lastMessage s)
    (suggestions s) (repoMetadata s) (isReconnecting s) (statusMessage s)
    (streamingContent s) (isStreaming s) (errorMessage s) (connectingRef s) v
    (intentionalCloseRef s) (reconnectAttemptsRef s) (reconnectTimeoutRef s)
    (connParamsRef s) (sockets s) (timers s) (nextTimer s).

Definition set_intentionalCloseRef (v : bool) (s : Provider) : Provider :=
  mkProvider (socket s) (isConnected s) (isProcessing s) (lastMessage s)
    (suggestions s) (repoMetadata s) (isReconnecting s) (statusMessage s)
    (streamingContent s) (isStreaming s) (errorMessage s) (connectingRef s)
    (pingIntervalRef s) v (reconnectAttemptsRef s) (reconnectTimeoutRef s)
    (connParamsRef s) (sockets s) (timers s) (nextTimer s).

Definition set_reconnectAttemptsRef (v : nat) (s : Provider) : Provider :=
  mkProvider (socket s) (isConnected s) (isProcessing s) (lastMessage s)
    (suggestions s) (repoMetadata s) (isReconnecting s) (statusMessage s)
    (streamingContent s) (isStreaming s) (errorMessage s) (connectingRef s)
    (pingIntervalRef s) (intentionalCloseRef s) v (reconnectTimeoutRef s)
    (connParamsRef s) (sockets s) (timers s) (nextTimer s).

Definition set_reconnectTimeoutRef (v : option nat) (s : Provider) : Provider :=
  mkProvider (socket s) (isConnected s) (isProcessing s) (lastMessage s)
    (suggestions s) (repoMetadata s) (isReconnecting s) (statusMessage s)
    (streamingContent s) (isStreaming s) (errorMessage s) (connectingRef s)
    (pingIntervalRef s) (intentionalCloseRef s) (reconnectAttemptsRef s) v
    (connParamsRef s) (sockets s) (timers s) (nextTimer s).

Definition set_connParamsRef (v : option ConnParams) (s : Provider) : Provider :=
  mkProvider (socket s) (isConnected s) (isProcessing s) (lastMessage s)
    (suggestions s) (repoMetadata s) (isReconnecting s) (statusMessage s)
    (streamingContent s) (isStreaming s) (errorMessage s) (connectingRef s)
    (pingIntervalRef s) (intentionalCloseRef s) (reconnectAttemptsRef s)
    (reconnectTimeoutRef s) v (sockets s) (timers s) (nextTimer s).

Definition set_sockets (v : list WebSocket) (s : Provider) : Provider :=
  mkProvider (socket s) (isConnected s) (isProcessing s) (lastMessage s)
    (suggestions s) (repoMetadata s) (isReconnecting s) (statusMessage s)
    (streamingContent s) (isStreaming s) (errorMessage s) (connectingRef s)
    (pingIntervalRef s) (intentionalCloseRef s) (reconnectAttemptsRef s)
    (reconnectTimeoutRef s) (connParamsRef s) v (timers s) (nextTimer s).

Definition set_timers (v : gmap nat Timer) (s : Provider) : Provider :=
  mkProvider (socket s) (isConnected s) (isProcessing s) (lastMessage s)
    (suggestions s) (repoMetadata s) (isReconnecting s) (statusMessage s)
    (streamingContent s) (isStreaming s) (errorMessage s) (connectingRef s)
    (pingIntervalRef s) (intentionalCloseRef s) (reconnectAttemptsRef s)
    (reconnectTimeoutRef s) (connParamsRef s) (sockets s) v (nextTimer s).

Definition set_nextTimer (v : nat) (s : Provider) : Provider :=
  mkProvider (socket s) (isConnected s) (isProcessing s) (lastMessage s)
    (suggestions s) (repoMetadata s) (isReconnecting s) (statusMessage s)
    (streamingContent s) (isStreaming s) (errorMessage s) (connectingRef s)
    (pingIntervalRef s) (intentionalCloseRef s) (reconnectAttemptsRef s)
    (reconnectTimeoutRef s) (connParamsRef s) (sockets s) (timers s) v.

(** The provider as first rendered. *)
Definition initial : Provider :=
  mkProvider None false false None [] None false None None false None
    false None false 0 None None [] ∅ 1.

(** ** Handlers as state transformers *)

Definition Action : Type := Provider → Provider.

Definition seq (a b : Action) : Action := fun s => b (a s).
Infix ">>" := seq (at level 61, left associativity).

Definition skip : Action := fun s => s.

(** [if (c) { a }] where [c] reads the provider. *)
Definition when (c : Provider → bool) (a : Action) : Action :=
  fun s => if c s then a s else s.

(** *** WebSocket methods *)

(** [ws.close()]: a connecting or open socket starts closing; the close
    event comes later, from the host. *)
Definition closing (w : WebSocket) : WebSocket :=
  match readyState w with
  | CONNECTING | OPEN =>
      mkWebSocket CLOSING (sent w) (target w) (timeout w) (promise w)
        (waiter w) (closure_socket w)
  | CLOSING | CLOSED => w
  end.

Definition ws_close (ws : nat) : Action :=
  fun s => set_sockets (alter closing ws (sockets s)) s.

(** [ws.send(data)] on an open socket queues the frame. Both call sites
    test [readyState === WebSocket.OPEN] first. *)
Definition sending (data : string) (w : WebSocket) : WebSocket :=
  match readyState w with
  | OPEN =>
      mkWebSocket OPEN (sent w ++ [data]) (target w) (timeout w) (promise w)
        (waiter w) (closure_socket w)
  | _ => w
  end.

Definition ws_send (ws : nat) (data : string) : Action :=
  fun s => set_sockets (alter (sending data) ws (sockets s)) s.

Definition ws_readyState (ws : nat) (s : Provider) : option ReadyState :=
  readyState <$> sockets s !! ws.

Definition is_open (ws : nat) (s : Provider) : bool :=
  match ws_readyState ws s with
  | Some OPEN => true
  | _ => false
  end.

(** *** Timers *)

(** [setTimeout]/[setInterval]: the handle returned is [nextTimer s]. *)
Definition setTimer (cb : Callback) (ms : N) (rep : bool) : Action :=
  fun s =>
    set_nextTimer (S (nextTimer s))
      (set_timers (<[nextTimer s := mkTimer cb ms rep]> (timers s)) s).

(** [clearTimeout(h)] / [clearInterval(h)] *)
Definition clearTimer (h : nat) : Action :=
  fun s => set_timers (delete h (timers s)) s.

Definition clearPingInterval : Action :=
  fun s =>
    match pingIntervalRef s with
    | Some h => (clearTimer h >> set_pingIntervalRef None) s
    | None => s
    end.

(** *** disconnect *)

Definition disconnect : Action :=
  set_intentionalCloseRef true >>
  (fun s =>
     match reconnectTimeoutRef s with
     | Some h => (clearTimer h >> set_reconnectTimeoutRef None) s
     | None => s
     end) >>
  set_reconnectAttemptsRef 0 >>
  setIsReconnecting false >>
  clearPingInterval >>
  (fun s =>
     match socket s with
     | Some ws =>
         (ws_close ws >>
          setSocket None >>
          setIsConnected false >>
          setIsProcessing false >>
          setLastMessage None >>
          setRepoMetadata None >>
          setStatusMessage None >>
          setStreamingContent None >>
          setIsStreaming false >>
          setErrorMessage None >>
          set_connectingRef false) s
     | None => s
     end).

(** *** The promise of one connect call *)

(** The reconnect timer's [.then(() => { ... })]. *)
Definition reconnect_then : Action :=
  set_reconnectAttemptsRef 0 >> setIsReconnecting false.

(** The reconnect timer's [.catch(() => { ... })]. *)
Definition reconnect_catch : Action :=
  when (fun s => 3 <=? reconnectAttemptsRef s) (setIsReconnecting false).

Definition settled (p : PromiseState) (w : WebSocket) : WebSocket :=
  mkWebSocket (readyState w) (sent w) (target w) (timeout w) p (waiter w)
    (closure_socket w).

Definition awaited_by (wt : Waiter) (w : WebSocket) : WebSocket :=
  mkWebSocket (readyState w) (sent w) (target w) (timeout w) (promise w) wt
    (closure_socket w).

(** [resolve()]: settles a pending promise and runs its continuation; a
    settled promise ignores it. The caller's continuation is outside the
    provider. *)
Definition resolve (ws : nat) : Action :=
  fun s =>
    match sockets s !! ws with
    | Some w =>
        match promise w with
        | Pending =>
            let s' := set_sockets (alter (settled Fulfilled) ws (sockets s)) s in
            match waiter w with
            | ReconnectChain => reconnect_then s'
            | Caller => s'
            end
        | _ => s
        end
    | None => s
    end.

(** [reject(e)] *)
Definition reject (ws : nat) : Action :=
  fun s =>
    match sockets s !! ws with
    | Some w =>
        match promise w with
        | Pending =>
            let s' := set_sockets (alter (settled Rejected) ws (sockets s)) s in
            match waiter w with
            | ReconnectChain => reconnect_catch s'
            | Caller => s'
            end
        | _ => s
        end
    | None => s
    end.

(** *** ws.onopen, ws.onerror *)

Definition timeout_of (ws : nat) (s : Provider) : option nat :=
  timeout <$> sockets s !! ws.

(** [clearTimeout(timeout)] in the closures of socket [ws]. *)
Definition clearTimeout_of (ws : nat) : Action :=
  fun s =>
    match timeout_of ws s with
    | Some h => clearTimer h s
    | None => s
    end.

Definition onopen (ws : nat) : Action :=
  clearTimeout_of ws >>
  setIsConnected true >>
  (fun s => (set_pingIntervalRef (Some (nextTimer s)) >>
             setTimer (PingTick ws) 240000 true) s) >>
  setIsProcessing true >>
  resolve ws.

Definition onerror (ws : nat) : Action :=
  clearTimeout_of ws >>
  set_connectingRef false >>
  setIsConnected false >>
  setIsProcessing false >>
  reject ws.

(** The connect timeout's callback. *)
Definition connect_timeout (ws : nat) : Action :=
  set_connectingRef false >> reject ws >> ws_close ws.

(** The heartbeat's callback. *)
Definition ping_tick (ws : nat) : Action :=
  when (is_open ws) (ws_send ws "ping").

(** *** connect *)

(** How a call of the async function [connect] ends: it returned at the
    re-entrancy guard (a fulfilled promise), it threw (a rejected
    promise), or it created socket [ws] and its promise is pending. No
    statement of the executor's [try] block throws here, so its [catch]
    is not reached. *)
Inductive Outcome : Type :=
  | Returned
  | Threw (message : string)
  | Created (ws : nat).

Definition new_WebSocket (p : ConnParams) (timeout : nat)
    (held : option nat) : Action :=
  fun s =>
    set_sockets
      (sockets s ++ [mkWebSocket CONNECTING [] p timeout Pending Caller held])
      s.

(** The body of [connect], run by the closure of a render in which the
    [socket] cell was [held]. *)
Definition connect_from (held : option nat) (owner repo : string)
    (githubToken : option string) (s : Provider) : Provider * Outcome :=
  if connectingRef s then (s, Returned)
  else if negb (SAFE_PARAM_REGEX_test owner) || negb (SAFE_PARAM_REGEX_test repo)
  then (s, Threw "Invalid repository owner or name.")
  else if (100 <? String.length owner) || (100 <? String.length repo)
  then (s, Threw "Repository owner or name too long.")
  else
    let s1 :=
      (set_connectingRef true >>
       set_intentionalCloseRef false >>
       set_connParamsRef (Some (mkConnParams owner repo githubToken)) >>
       match held with
       | Some old =>
           ws_close old >> setSocket None >> setIsConnected false >>
           setIsProcessing false
       | None => skip
       end >>
       clearPingInterval) s in
    let ws := length (sockets s1) in
    let s2 :=
      (new_WebSocket (mkConnParams owner repo githubToken) (nextTimer s1)
         held >>
       setTimer (ConnectTimeout ws) 60000 false >>
       setSocket (Some ws)) s1 in
    (s2, Created ws).

(** [connect] as the presentation layer calls it: the one of the latest
    render, which sees the [socket] cell as it is. *)
Definition connect (owner repo : string) (githubToken : option string)
    (s : Provider) : Provider * Outcome :=
  connect_from (socket s) owner repo githubToken s.

(** *** ws.onclose and the reconnect timer *)

(** The [socket] that the [connect] in the closures of socket [ws]
    reads. *)
Definition socket_seen_by (ws : nat) (s : Provider) : option nat :=
  sockets s !! ws ≫= closure_socket.

(** The callback armed by the [onclose] of socket [ws]:
    [connect(params.owner, params.repo, params.githubToken)
       .then(...).catch(...)],
    where [connect] is the one that made [ws]. *)
Definition reconnect_tick (ws : nat) : Action :=
  fun s =>
    let s1 := set_reconnectAttemptsRef (reconnectAttemptsRef s + 1) s in
    match connParamsRef s1 with
    | Some params =>
        match connect_from (socket_seen_by ws s1) (owner params)
                (repo params) (githubToken params) s1 with
        | (s2, Returned) => reconnect_then s2
        | (s2, Threw _) => reconnect_catch s2
        | (s2, Created ws) =>
            set_sockets (alter (awaited_by ReconnectChain) ws (sockets s2)) s2
        end
    | None => s1
    end.

(** The guard of the auto-reconnect in [ws.onclose]. *)
Definition should_reconnect (s : Provider) : bool :=
  negb (intentionalCloseRef s) && bool_decide (is_Some (connParamsRef s))
  && (reconnectAttemptsRef s <? 3).

(** [Math.pow(2, attempt) * 1000] *)
Definition backoff (attempt : nat) : N := (2 ^ N.of_nat attempt * 1000)%N.

Definition onclose (ws : nat) : Action :=
  clearPingInterval >>
  setIsConnected false >>
  setIsProcessing false >>
  setSocket None >>
  set_connectingRef false >>
  when should_reconnect
    (fun s =>
       let attempt := reconnectAttemptsRef s in
       (setIsReconnecting true >>
        set_reconnectTimeoutRef (Some (nextTimer s)) >>
        setTimer (ReconnectTick ws) (backoff attempt) false) s).

(** *** sendMessage *)

Definition sendMessage (message : string) : Action :=
  fun s =>
    match socket s with
    | Some ws =>
        if is_open ws s then
          let trimmed := slice_to MAX_MESSAGE_LENGTH message in
          (setSuggestions [] >> ws_send ws trimmed) s
        else s
    | None => s
    end.

(** *** ws.onmessage *)

(** The own properties of [statusMap]; every value is a non-empty
    string. *)
Definition statusMap : gmap string string :=
  list_to_map
    [ ("cloning", "Fetching repository...");
      ("chunking", "Analyzing code structure...");
      ("indexing", "Building knowledge base...");
      ("searching", "Searching codebase...");
      ("thinking", "Generating response...") ].

(** The string keys that [statusMap], an object literal, inherits from
    [Object.prototype]. *)
Definition Object_prototype_keys : list string :=
  [ "constructor"; "hasOwnProperty"; "isPrototypeOf"; "propertyIsEnumerable";
    "toLocaleString"; "toString"; "valueOf"; "__proto__";
    "__defineGetter__"; "__defineSetter__"; "__lookupGetter__";
    "__lookupSetter__" ].

Definition inherits (key : string) : bool :=
  existsb (fun name => key === name) Object_prototype_keys.

Definition is_object (v : StatusValue) : bool :=
  match v with
  | EmptyObject | StringObject _ | BooleanObject | ObjectPrototype => true
  | StatusText _ | StatusFalse | UpdaterThrows => false
  end.

(** [Object(prev)]: an object is returned as it is, [null] gives a new
    empty object, a string or a boolean its wrapper. *)
Definition Object_of (prev : option StatusValue) : StatusValue :=
  match prev with
  | None => EmptyObject
  | Some (StatusText s) => StringObject s
  | Some StatusFalse => BooleanObject
  | Some v => v
  end.

(** What [statusMessage] becomes by [setStatusMessage(statusMap[key])]
    for an inherited [key], from the previous value [prev].
    [__proto__] is the prototype object, which is stored. The others are
    functions, run as [f(prev)] with [this] undefined: [constructor] is
    [Object]; [toString] gives ["[object Undefined]"]; [isPrototypeOf]
    gives [false] unless [prev] is an object, and then converts [this];
    the remaining ones convert or read [this] first, and that throws a
    TypeError. A throwing updater fails the provider's render: what
    React does then is not modelled, the cell keeps the marker
    [UpdaterThrows] and later updaters leave it. *)
Definition inherited (key : string) (prev : option StatusValue) :
    StatusValue :=
  if key === "__proto__" then ObjectPrototype
  else
    match prev with
    | Some UpdaterThrows => UpdaterThrows
    | _ =>
        if key === "constructor" then Object_of prev
        else if key === "toString" then StatusText "[object Undefined]"
        else if key === "isPrototypeOf" then
          if from_option is_object false prev then UpdaterThrows
          else StatusFalse
        else UpdaterThrows
    end.

(** [if (prev)] on a string cell: neither [null] nor empty. *)
Definition truthy (prev : option string) : bool :=
  match prev with
  | Some text => negb (text === "")
  | None => false
  end.

(** [JSON.parse] is the host's: [None] when it throws. *)
Class Host : Type := JSON_parse : string → option JSON.

Section Parser.

Context {host : Host}.

Definition onmessage (ws : nat) (data : string) : Action :=
  if data === "pong" then skip
  else if (data === "error:repo_too_large") || (data === "error:repo_not_found")
          || (data === "error:repo_private")
          || (data === "error:repo_not_installed")
          || (data === "error:rate_limited") || (data === "error:server_busy")
  then
    setLastMessage (Some data) >>
    set_connectingRef false >>
    setIsProcessing false >>
    ws_close ws
  else if data === "error:timeout" then
    setErrorMessage (Some "Response timed out. Please try a simpler question.") >>
    setStatusMessage None >>
    setIsStreaming false >>
    setStreamingContent None
  else if data === "error:keys_exhausted" then
    setErrorMessage
      (Some "Service temporarily unavailable. Please try again in a few minutes.") >>
    setStatusMessage None >>
    setIsStreaming false >>
    setStreamingContent None
  else if (data === "error:generation_failed")
          || (data === "error:retrieval_failed")
  then
    setErrorMessage (Some "Something went wrong. Please try again.") >>
    setStatusMessage None >>
    setIsStreaming false >>
    setStreamingContent None
  else if data === "error:indexing_failed" then
    setErrorMessage (Some "Failed to build knowledge base. Please try again.") >>
    setStatusMessage None >>
    setIsProcessing false >>
    set_connectingRef false >>
    ws_close ws
  else if data === "error:unexpected" then
    setLastMessage (Some "error:repo_not_found") >>
    set_connectingRef false >>
    setIsProcessing false >>
    ws_close ws
  else if startsWith data "status:" then
    let status := slice_from (String.length "status:") data in
    match statusMap !! status with
    | Some display => setStatusMessage (Some (StatusText display))
    | None =>
        if inherits status then
          fun s =>
            setStatusMessage (Some (inherited status (statusMessage s))) s
        else setStatusMessage (Some (StatusText status))
    end
  else if startsWith data "stream:chunk:" then
    let chunk := slice_from (String.length "stream:chunk:") data in
    setStatusMessage None >>
    setIsStreaming true >>
    (fun s =>
       setStreamingContent (Some (default "" (streamingContent s) +:+ chunk)) s)
  else if data === "stream:end" then
    setIsStreaming false >>
    (fun s =>
       let prev := streamingContent s in
       ((if truthy prev then setLastMessage prev else skip) >>
        setStreamingContent None) s)
  else if data === "repo_processed" then
    setIsProcessing false >>
    setStatusMessage None >>
    set_connectingRef false >>
    setLastMessage (Some "repo_processed")
  else if startsWith data "metadata:" then
    match JSON_parse (slice_from (String.length "metadata:") data) with
    | Some parsed => setRepoMetadata (nullable parsed)
    | None => skip
    end
  else if startsWith data "suggestions:" then
    match JSON_parse (slice_from (String.length "suggestions:") data) with
    | Some parsed =>
        match isArray parsed with
        | Some items => setSuggestions items
        | None => skip
        end
    | None => skip
    end
  else
    setLastMessage (Some data).

(** ** The event loop *)

(** What can happen to a provider: a call of one of its three operations
    by the presentation layer, an event of socket [ws] delivered by the
    host, or a timer coming due. *)
Inductive Event : Type :=
  | CallConnect (owner repo : string) (githubToken : option string)
  | CallDisconnect
  | CallSendMessage (message : string)
  | WsOpen (ws : nat)
  | WsMessage (ws : nat) (data : string)
  | WsError (ws : nat)
  | WsClose (ws : nat)
  | TimerDue (h : nat).

Definition become (r : ReadyState) (w : WebSocket) : WebSocket :=
  mkWebSocket r (sent w) (target w) (timeout w) (promise w) (waiter w)
    (closure_socket w).

Definition ws_become (ws : nat) (r : ReadyState) : Action :=
  fun s => set_sockets (alter (become r) ws (sockets s)) s.

(** The host's part: a socket opens only while connecting, delivers
    frames only while open, and closes once; a one-shot timer is gone
    once it has run. *)
Definition step (e : Event) : Action :=
  fun s =>
    match e with
    | CallConnect o r t => fst (connect o r t s)
    | CallDisconnect => disconnect s
    | CallSendMessage m => sendMessage m s
    | WsOpen ws =>
        match ws_readyState ws s with
        | Some CONNECTING => (ws_become ws OPEN >> onopen ws) s
        | _ => s
        end
    | WsMessage ws data => if is_open ws s then onmessage ws data s else s
    | WsError ws =>
        match ws_readyState ws s with
        | Some CLOSED | None => s
        | Some _ => onerror ws s
        end
    | WsClose ws =>
        match ws_readyState ws s with
        | Some CLOSED | None => s
        | Some _ => (ws_become ws CLOSED >> onclose ws) s
        end
    | TimerDue h =>
        match timers s !! h with
        | Some t =>
            let s' := if repeating t then s else clearTimer h s in
            match callback t with
            | ConnectTimeout ws => connect_timeout ws s'
            | PingTick ws => ping_tick ws s'
            | ReconnectTick ws => reconnect_tick ws s'
            end
        | None => s
        end
    end.

Definition run (es : list Event) : Action :=
  fun s => foldl (fun acc e => step e acc) s es.

End Parser.

(** ** Vocabulary of the statements *)

(** The six tokens of the first error test in [ws.onmessage]. *)
Definition connection_fatal : list string :=
  [ "error:repo_too_large"; "error:repo_not_found"; "error:repo_private";
    "error:repo_not_installed"; "error:rate_limited"; "error:server_busy" ].

(** The four chat-phase tokens shown as a toast. *)
Definition chat_recoverable : list string :=
  [ "error:timeout"; "error:keys_exhausted"; "error:generation_failed";
    "error:retrieval_failed" ].

Definition one_of (tokens : list string) (data : string) : bool :=
  existsb (fun tok => data === tok) tokens.

(** Rules 1 to 11 of the wire protocol as the specification lists them:
    the frame is a heartbeat, an error token, or one of the status,
    stream, repo_processed, metadata and suggestions forms. *)
Definition spec_rules_1_11 (data : string) : bool :=
  (data === "ping") || (data === "pong")
  || one_of connection_fatal data
  || one_of chat_recoverable data
  || (data === "error:indexing_failed")
  || (data === "error:unexpected")
  || startsWith data "status:"
  || startsWith data "stream:chunk:"
  || (data === "stream:end")
  || (data === "repo_processed")
  || startsWith data "metadata:"
  || startsWith data "suggestions:".


(** No reconnect timer is pending; no reconnect attempt is in flight (a
    socket made by the reconnect timer whose promise is still pending). *)
Definition no_reconnect_timer (s : Provider) : Prop :=
  map_Forall (fun _ t => ∀ ws, callback t ≠ ReconnectTick ws) (timers s).





Section Traces.

Context {host : Host}.

(** Frames handed to the [onmessage] of socket [ws] in arrival order. *)
Definition feed (ws : nat) (frames : list string) : Action :=
  fun s => foldl (fun acc data => onmessage ws data acc) s frames.



End Traces.

(** The payloads of a run of chunk frames, joined with no separator. *)
Definition joined (chunks : list string) : string :=
  foldr String.append "" chunks.

Definition chunk_frame (chunk : string) : string := "stream:chunk:" +:+ chunk.

(** ** Vocabulary of a single reconnect chain *)







(** ** Vocabulary of the further statements *)

(** The two checks of [connect] on its parameters both pass. *)
Definition valid_params (p : ConnParams) : Prop :=
  SAFE_PARAM_REGEX_test (owner p) = true
  ∧ SAFE_PARAM_REGEX_test (repo p) = true
  ∧ String.length (owner p) ≤ 100
  ∧ String.length (repo p) ≤ 100.

(** The remembered parameters and the target of every socket passed the
    checks of [connect]. *)
Definition targets_valid (s : Provider) : Prop :=
  (∀ p, connParamsRef s = Some p → valid_params p)
  ∧ Forall (fun w => valid_params (target w)) (sockets s).

(** No frame sent on any socket is longer than [MAX_MESSAGE_LENGTH]. *)
Definition frames_capped (s : Provider) : Prop :=
  Forall
    (fun w => Forall (fun frame => String.length frame ≤ MAX_MESSAGE_LENGTH)
                (sent w))
    (sockets s).

(** After [disconnect]: the close is flagged intentional and no reconnect
    timer is pending. *)
Definition disconnected (s : Provider) : Prop :=
  intentionalCloseRef s = true ∧ no_reconnect_timer s.

Definition is_connect (e : Event) : bool :=
  match e with
  | CallConnect _ _ _ => true
  | _ => false
  end.

(** The events considered by an invariant: all of them, or all but the
    calls of [connect]. *)
Definition allowed (connects : bool) (e : Event) : bool :=
  connects || negb (is_connect e).

(** The only reconnect timer that may be pending is the one
    [reconnectTimeoutRef] holds. *)
Definition reconnect_timer_tracked (s : Provider) : Prop :=
  ∀ h t ws, timers s !! h = Some t → callback t = ReconnectTick ws →
            reconnectTimeoutRef s = Some h.

(** A wrapper of a socket that leaves its target and its sent frames. *)
Definition transparent (f : WebSocket → WebSocket) : Prop :=
  ∀ w, target (f w) = target w ∧ sent (f w) = sent w.

(** ** The chat page, where it persists messages and sends them

    The part of the [Chat] component that calls the provider and keeps
    the conversation: [persistMessages], [addMessage], the restore of the
    messages on the first render, the effect on [lastMessage], and
    [handleSend]. [localStorage] holds JSON texts;
    the model holds the data they stand for, as this code writes and
    reads them, and takes [setItem] not to run out of quota. *)
Module Chat.

Inductive Role : Type := user | assistant.

Record Message : Type := mkMessage {
  content : string;
  role : Role
}.

(** An entry of [recent_chats]; [messageCount] is optional. *)
Record RecentChat : Type := mkRecentChat {
  owner : string;
  repo : string;
  private : bool;
  timestamp : N;
  messageCount : option nat
}.

(** The two [localStorage] keys the page uses: [storageKey] and
    ['recent_chats'], each absent or holding what was last stored.
    [setItem] is taken to succeed and a stored text to parse back to the
    value that was stringified; the [catch] branches for a quota error
    or a malformed text are not modelled. *)
Record Storage : Type := mkStorage {
  chat_messages : option (list Message);
  recent_chats : option (list RecentChat)
}.

(** The [useState] cells that the functions below touch, the store, and
    the ref that says whether the welcome message has been shown (on the
    first render it is [messages.length > 0]). *)
Record Page : Type := mkPage {
  messages : list Message;
  inputValue : string;
  activeMode : option string;
  isLoading : bool;
  storage : Storage;
  welcomeMessageShownRef : bool
}.

(** [l.slice(-n)] *)
Definition slice_last {A : Type} (n : nat) (l : list A) : list A :=
  drop (length l - n) l.

(** [c.owner === owner && c.repo === repo], where [owner] and [repo] are
    the route parameters ([undefined] when the route has none). *)
Definition same_repo (o r : option string) (c : RecentChat) : bool :=
  bool_decide (o = Some (owner c)) && bool_decide (r = Some (repo c)).

(** [{ ...c, messageCount: n }] *)
Definition with_count (n : nat) (c : RecentChat) : RecentChat :=
  mkRecentChat (owner c) (repo c) (private c) (timestamp c) (Some n).

Definition persistMessages (o r : option string) (msgs : list Message)
    (st : Storage) : Storage :=
  if negb (truthy o) || negb (truthy r) then st
  else
    let capped := slice_last 50 msgs in
    let st1 := mkStorage (Some capped) (recent_chats st) in
    match recent_chats st1 with
    | Some chats =>
        let updated :=
          (fun c => if same_repo o r c then with_count (length capped) c else c)
            <$> chats in
        mkStorage (chat_messages st1) (Some updated)
    | None => st1
    end.

Definition addMessage (o r : option string) (text : string) (who : Role)
    (p : Page) : Page :=
  let next := messages p ++ [mkMessage text who] in
  mkPage next (inputValue p) (activeMode p) (isLoading p)
    (persistMessages o r next (storage p)) (welcomeMessageShownRef p).

(** The initializer of the [messages] cell; [share] is
    [window.location.hash.startsWith('#share=')]. *)
Definition restored_messages (o r : option string) (share : bool)
    (st : Storage) : list Message :=
  if truthy o && truthy r && negb share then
    match chat_messages st with
    | Some parsed => if 0 <? length parsed then parsed else []
    | None => []
    end
  else [].




(** [String.prototype.trim] and [toUpperCase] are the host's. *)
Class Text : Type := {
  trim : string → string;
  toUpperCase : string → string
}.

Section Send.

Context {text : Text}.

(** [s.charAt(0)] *)
Definition charAt0 (s : string) : string := String.substring 0 1 s.

Definition handleSend (o r : option string) (p : Page) (s : Provider) :
    Page * Provider :=
  let trimmed := trim (inputValue p) in
  if (trimmed === "") || negb (isConnected s) || isLoading p
     || isProcessing s || isStreaming s
  then (p, s)
  else
    let message := slice_to 10000 trimmed in
    let displayMessage :=
      if truthy (activeMode p) then
        let mode := default "" (activeMode p) in
        "[" +:+ toUpperCase (charAt0 mode) +:+ slice_from 1 mode
        +:+ " Mode] " +:+ message
      else message in
    let p1 := addMessage o r displayMessage user p in
    let wireMessage :=
      if truthy (activeMode p) then
        "[MODE:" +:+ default "" (activeMode p) +:+ "] " +:+ message
      else message in
    let s' := sendMessage wireMessage s in
    (mkPage (messages p1) "" None true (storage p1)
       (welcomeMessageShownRef p1), s').

(** The click on a follow-up suggestion. *)
Definition send_suggestion (o r : option string) (suggestion : string)
    (p : Page) (s : Provider) : Page * Provider :=
  let p1 := addMessage o r suggestion user p in
  (mkPage (messages p1) (inputValue p1) (activeMode p1) true (storage p1)
     (welcomeMessageShownRef p1),
   sendMessage suggestion s).

End Send.

End Chat.

(** ** Sample inputs *)

(** A host whose [JSON.parse] throws on every text. The sample runs below
    deliver no [metadata:] or [suggestions:] frame, so they never call
    it. *)
Definition parse_throws : Host := fun _ => None.

(** An explicit connect that opens. *)
Definition opened : list Event :=
  [ CallConnect "octocat" "hello-world" None; WsOpen 0 ].

(** Socket 0 opens, is told the repository is ready, and is lost; each of
    the three reconnect attempts (timers 3, 5, 7; sockets 1, 2, 3) fails
    before it opens. *)
Definition three_failed_attempts : list Event :=
  opened ++
  [ WsMessage 0 "repo_processed"; WsClose 0;
    TimerDue 3; WsError 1; WsClose 1;
    TimerDue 5; WsError 2; WsClose 2;
    TimerDue 7; WsError 3; WsClose 3 ].


Fixpoint repeat_char (c : ascii) (n : nat) : string :=
  match n with
  | 0 => EmptyString
  | S k => String c (repeat_char c k)
  end.

(** 10,000 times [a], then 5,000 times [b]. *)
Definition long_message : string :=
  repeat_char "a" 10000 +:+ repeat_char "b" 5000.

(** ** Strings *)

Lemma str_eq_true (a b : string) : a === b = true ↔ a = b.
Proof. unfold str_eq. apply String.eqb_eq. Qed.

Lemma substring_whole (b : string) : String.substring 0 (String.length b) b = b.
Proof. induction b as [|c b IH]; cbn; [done | by rewrite IH]. Qed.

Lemma slice_from_app (a b : string) :
  slice_from (String.length a) (a +:+ b) = b.
Proof.
  unfold slice_from.
  induction a as [|c a IH]; cbn.
  - rewrite Nat.sub_0_r. apply substring_whole.
  - exact IH.
Qed.

Lemma slice_to_length (n : nat) (data : string) :
  String.length (slice_to n data) = n `min` String.length data.
Proof.
  unfold slice_to. revert data.
  induction n as [|n IH]; intros [|c data]; simpl; try done.
  by rewrite IH.
Qed.

Lemma slice_to_prefix (n : nat) (data : string) :
  ∃ rest, data = slice_to n data +:+ rest.
Proof.
  unfold slice_to. revert data.
  induction n as [|n IH]; intros [|c data]; cbn.
  - by exists "".
  - by exists (String c data).
  - by exists "".
  - destruct (IH data) as [rest Hrest]. exists rest.
    change (String c data = String c (String.substring 0 n data +:+ rest)).
    by rewrite <- Hrest.
Qed.

Lemma slice_to_short (n : nat) (data : string) :
  String.length data ≤ n → slice_to n data = data.
Proof.
  unfold slice_to. revert data.
  induction n as [|n IH]; intros [|c data]; simpl; intros Hlen; try done.
  - lia.
  - rewrite IH; [done | lia].
Qed.

Section Properties.

Context {host : Host}.

Ltac split_orb :=
  repeat match goal with
         | H : (_ || _) = false |- _ =>
             apply orb_false_iff in H; destruct H
         end;
  repeat match goal with
         | H : false = false |- _ => clear H
         end.

Ltac use_tests :=
  repeat match goal with
         | H : ?t = false |- context [?t] => rewrite H
         end.

(** Runs the plain setters and reads the cells they wrote. *)
Ltac cells :=
  cbn [seq when skip
       setSocket setIsConnected setIsProcessing setLastMessage setSuggestions
       setRepoMetadata setIsReconnecting setStatusMessage setStreamingContent
       setIsStreaming setErrorMessage set_connectingRef set_pingIntervalRef
       set_intentionalCloseRef set_reconnectAttemptsRef
       set_reconnectTimeoutRef set_connParamsRef set_sockets set_timers
       set_nextTimer
       socket isConnected isProcessing lastMessage suggestions repoMetadata
       isReconnecting statusMessage streamingContent isStreaming errorMessage
       connectingRef pingIntervalRef intentionalCloseRef reconnectAttemptsRef
       reconnectTimeoutRef connParamsRef sockets timers nextTimer
       ws_close ws_send ws_become setTimer clearTimer reconnect_then
       new_WebSocket].

(** ** The default rule (C3) *)

(** C3, as amended: a frame that matches none of rules 1 to 11 becomes
    [lastMessage], and nothing else changes; in particular
    [isProcessing] keeps its value. *)
Theorem plain_frame_sets_lastMessage (ws : nat) (data : string) (s : Provider) :
  spec_rules_1_11 data = false →
  onmessage ws data s = setLastMessage (Some data) s
  ∧ isProcessing (onmessage ws data s) = isProcessing s.
Proof.
  intros Hnone.
  assert (onmessage ws data s = setLastMessage (Some data) s) as ->; [|done].
  unfold spec_rules_1_11, one_of, connection_fatal, chat_recoverable in Hnone.
  cbn [existsb] in Hnone. split_orb.
  unfold onmessage. cbn [orb]. use_tests. cbn [orb]. by use_tests.
Qed.

(** ** Heartbeat frames (C5) *)

(** C5, as amended: the frame ["pong"] is a heartbeat and leaves the
    whole provider as it was; the frame ["ping"] is not special-cased and
    takes the default rule, which records it as [lastMessage] and changes
    nothing else. *)
Theorem pong_ignored_ping_recorded (ws : nat) (s : Provider) :
  onmessage ws "pong" s = s
  ∧ onmessage ws "ping" s = setLastMessage (Some "ping") s.
Proof. split; reflexivity. Qed.

(** ** Terminal error frames (C1, C2) *)

Lemma ws_close_open (ws : nat) (s : Provider) :
  is_open ws s = true → ws_readyState ws (ws_close ws s) = Some CLOSING.
Proof.
  unfold is_open, ws_readyState, ws_close. simpl.
  rewrite list_lookup_alter_eq.
  destruct (sockets s !! ws) as [w|] eqn:Hw; simpl; [|done].
  unfold closing. by destruct (readyState w).
Qed.

Lemma fatal_frame_effect (ws : nat) (tok : string) (s : Provider) :
  tok ∈ connection_fatal →
  onmessage ws tok s =
    (setLastMessage (Some tok) >> set_connectingRef false >>
     setIsProcessing false >> ws_close ws) s.
Proof.
  unfold connection_fatal. intros Htok.
  repeat (apply elem_of_cons in Htok as [->|Htok]; [reflexivity|]).
  by apply elem_of_nil in Htok.
Qed.

(** C2, as amended: each of the six terminal tokens becomes
    [lastMessage]; [error:unexpected] becomes the [lastMessage]
    ["error:repo_not_found"]; [error:indexing_failed] becomes the
    [errorMessage] notification and leaves [lastMessage] as it was; and
    in all eight cases [ws.close()] is called, which takes an open socket
    to CLOSING. *)
Theorem terminal_frames_surface_and_close (ws : nat) (s : Provider) :
  Forall (fun tok =>
            lastMessage (onmessage ws tok s) = Some tok
            ∧ sockets (onmessage ws tok s) = sockets (ws_close ws s))
         connection_fatal
  ∧ (lastMessage (onmessage ws "error:unexpected" s)
       = Some "error:repo_not_found"
     ∧ sockets (onmessage ws "error:unexpected" s) = sockets (ws_close ws s))
  ∧ (errorMessage (onmessage ws "error:indexing_failed" s)
       = Some "Failed to build knowledge base. Please try again."
     ∧ lastMessage (onmessage ws "error:indexing_failed" s) = lastMessage s
     ∧ sockets (onmessage ws "error:indexing_failed" s)
         = sockets (ws_close ws s))
  ∧ (is_open ws s = true → ws_readyState ws (ws_close ws s) = Some CLOSING).
Proof.
  split; [|split; [|split]].
  - repeat constructor.
  - by split.
  - by repeat split.
  - apply ws_close_open.
Qed.

(** C1, on the code: after a terminal token on a connection made by
    [connect] (the close is not flagged intentional, the parameters are
    remembered) with retries left, the frame clears [isProcessing] and
    calls [ws.close()], and the close event that follows arms the
    reconnect timer. *)
Theorem fatal_frame_then_close_arms_reconnect
    (ws : nat) (tok : string) (s : Provider) :
  tok ∈ connection_fatal →
  intentionalCloseRef s = false →
  is_Some (connParamsRef s) →
  reconnectAttemptsRef s < 3 →
  let s1 := onmessage ws tok s in
  let s2 := onclose ws s1 in
  isProcessing s1 = false
  ∧ sockets s1 = sockets (ws_close ws s)
  ∧ isReconnecting s2 = true
  ∧ reconnectTimeoutRef s2 = Some (nextTimer s)
  ∧ timers s2 !! nextTimer s
      = Some (mkTimer (ReconnectTick ws) (backoff (reconnectAttemptsRef s))
                false).
Proof.
  intros Htok Hflag [params Hparams] Hleft s1 s2. subst s1 s2.
  rewrite (fatal_frame_effect ws tok s Htok).
  apply Nat.ltb_lt in Hleft.
  destruct s; simpl in Hflag, Hparams, Hleft. subst.
  unfold onclose, seq, when, should_reconnect, clearPingInterval, seq.
  destruct pingIntervalRef0; simpl; rewrite Hleft; simpl;
    by rewrite lookup_insert_eq.
Qed.

(** ** disconnect (C4) *)



(** ** The attempt counter on open (C6) *)

Lemma lookup_become (ws : nat) (r : ReadyState) (w : WebSocket)
    (l : list WebSocket) :
  l !! ws = Some w → alter (become r) ws l !! ws = Some (become r w).
Proof. intros Hw. by rewrite list_lookup_alter_eq, Hw. Qed.

Lemma clearTimeout_of_lookup (ws : nat) (w : WebSocket) (s : Provider) :
  sockets s !! ws = Some w → clearTimeout_of ws s = clearTimer (timeout w) s.
Proof. intros Hw. unfold clearTimeout_of, timeout_of. by rewrite Hw. Qed.

Lemma resolve_pending (ws : nat) (w : WebSocket) (s : Provider) :
  sockets s !! ws = Some w →
  promise w = Pending →
  resolve ws s =
    (match waiter w with
     | ReconnectChain => reconnect_then
     | Caller => skip
     end) (set_sockets (alter (settled Fulfilled) ws (sockets s)) s).
Proof.
  intros Hw Hpend. unfold resolve. rewrite Hw, Hpend. by destruct (waiter w).
Qed.

(** C6, as amended: when a connecting socket opens while its promise is
    pending, the attempt counter becomes 0 (and [isReconnecting] false)
    if the socket was created by the reconnect timer, whose [.then]
    does the reset; if it was created by an explicit [connect], the
    counter and [isReconnecting] keep their values. *)
Theorem open_resets_attempts_of_reconnect_only
    (ws : nat) (w : WebSocket) (s : Provider) :
  sockets s !! ws = Some w →
  readyState w = CONNECTING →
  promise w = Pending →
  let s' := step (WsOpen ws) s in
  isConnected s' = true
  ∧ match waiter w with
    | ReconnectChain =>
        reconnectAttemptsRef s' = 0 ∧ isReconnecting s' = false
    | Caller =>
        reconnectAttemptsRef s' = reconnectAttemptsRef s
        ∧ isReconnecting s' = isReconnecting s
    end.
Proof.
  intros Hw Hconn Hpend s'. subst s'.
  unfold step, ws_readyState. rewrite Hw. simpl. rewrite Hconn.
  pose proof (lookup_become ws OPEN w (sockets s) Hw) as Hopen.
  unfold seq at 1. unfold onopen, seq.
  rewrite (clearTimeout_of_lookup ws (become OPEN w)) by exact Hopen.
  rewrite (resolve_pending ws (become OPEN w)); [|exact Hopen|exact Hpend].
  simpl. by destruct (waiter w).
Qed.

(** ** Streaming (C8) *)

Lemma append_assoc (a b c : string) : (a +:+ b) +:+ c = a +:+ (b +:+ c).
Proof.
  induction a as [|x a IH]; [done|].
  change (String x ((a +:+ b) +:+ c) = String x (a +:+ (b +:+ c))).
  by rewrite IH.
Qed.

Lemma append_empty_r (a : string) : a +:+ "" = a.
Proof.
  induction a as [|x a IH]; [done|].
  change (String x (a +:+ "") = String x a). by rewrite IH.
Qed.

(** Settles each test of [ws.onmessage] that the known head of the frame
    already decides. *)
Ltac settle t := first [change t with false | change t with true].

Ltac decide_tests :=
  repeat match goal with
         | |- context [?a === ?b] => settle (a === b)
         | |- context [startsWith ?a ?b] => settle (startsWith a b)
         end;
  cbn [orb].

Lemma startsWith_app (p rest : string) : startsWith (p +:+ rest) p = true.
Proof.
  unfold startsWith. induction p as [|c p IH]; [by destruct rest|].
  change ((if ascii_dec c c then String.prefix p (p +:+ rest) else false)
          = true).
  by destruct (ascii_dec c c).
Qed.

Lemma chunk_frame_effect (ws : nat) (chunk : string) (s : Provider) :
  onmessage ws (chunk_frame chunk) s =
    setStreamingContent (Some (default "" (streamingContent s) +:+ chunk))
      (setIsStreaming true (setStatusMessage None s)).
Proof.
  unfold onmessage, chunk_frame. decide_tests.
  rewrite startsWith_app.
  by rewrite (slice_from_app "stream:chunk:" chunk).
Qed.

Lemma stream_end_effect (ws : nat) (s : Provider) :
  onmessage ws "stream:end" s =
    setStreamingContent None
      ((if truthy (streamingContent s)
        then setLastMessage (streamingContent s) else skip)
         (setIsStreaming false s)).
Proof. reflexivity. Qed.

Lemma feed_chunks (ws : nat) (chunks : list string) (s : Provider) :
  chunks ≠ [] →
  let s' := feed ws (chunk_frame <$> chunks) s in
  streamingContent s'
    = Some (default "" (streamingContent s) +:+ joined chunks)
  ∧ isStreaming s' = true
  ∧ lastMessage s' = lastMessage s.
Proof.
  revert s. induction chunks as [|chunk rest IH]; intros s Hne; [done|].
  unfold feed. cbn [fmap list_fmap foldl]. fold (chunk_frame <$> rest).
  set (s1 := onmessage ws (chunk_frame chunk) s).
  change (foldl _ s1 (chunk_frame <$> rest))
    with (feed ws (chunk_frame <$> rest) s1).
  assert (streamingContent s1
            = Some (default "" (streamingContent s) +:+ chunk)
          ∧ isStreaming s1 = true ∧ lastMessage s1 = lastMessage s)
    as (Hbuf & Hon & Hlast).
  { subst s1. by rewrite chunk_frame_effect. }
  destruct rest as [|next rest].
  - cbn. by rewrite append_empty_r.
  - destruct (IH s1) as (IHbuf & IHon & IHlast); [done|].
    rewrite IHbuf, IHon, IHlast, Hbuf, Hlast. simpl.
    by rewrite append_assoc.
Qed.

Lemma empty_buffer (prev : option string) :
  truthy prev = false → default "" prev = "".
Proof.
  destruct prev as [text|]; [|done]. cbn.
  intros Hempty. apply negb_false_iff, str_eq_true in Hempty. by subst.
Qed.

(** C8: from any provider whose stream buffer is empty, the frames
    [status:cloning], [stream:chunk:Hello ], [stream:chunk:world],
    [stream:end] leave [lastMessage = "Hello world"], [isStreaming =
    false] and an empty buffer. In general a run of chunk frames appends
    the payloads to the buffer in arrival order with no separator, and
    [stream:end] promotes a non-empty buffer to [lastMessage] and clears
    the buffer and [isStreaming]. *)
Theorem stream_frames_finalize (ws : nat) (s : Provider) :
  truthy (streamingContent s) = false →
  (let s' := feed ws [ "status:cloning"; "stream:chunk:Hello ";
                       "stream:chunk:world"; "stream:end" ] s in
   lastMessage s' = Some "Hello world"
   ∧ isStreaming s' = false
   ∧ streamingContent s' = None)
  ∧ (∀ chunks (t : Provider),
       chunks ≠ [] →
       streamingContent (feed ws (chunk_frame <$> chunks) t)
         = Some (default "" (streamingContent t) +:+ joined chunks))
  ∧ (∀ t : Provider,
       truthy (streamingContent t) = true →
       let t' := onmessage ws "stream:end" t in
       lastMessage t' = streamingContent t
       ∧ streamingContent t' = None
       ∧ isStreaming t' = false).
Proof.
  intros Hempty. split; [|split].
  - apply empty_buffer in Hempty.
    unfold feed. cbn [foldl].
    change "stream:chunk:Hello " with (chunk_frame "Hello ").
    change "stream:chunk:world" with (chunk_frame "world").
    rewrite stream_end_effect, !chunk_frame_effect.
    cbn [streamingContent setStreamingContent truthy].
    change (onmessage ws "status:cloning" s)
      with (setStatusMessage (Some (StatusText "Fetching repository...")) s).
    cbn [streamingContent setStatusMessage setIsStreaming default].
    rewrite Hempty. done.
  - intros chunks t Hne. by destruct (feed_chunks ws chunks t Hne).
  - intros t Hfull t'. subst t'. rewrite stream_end_effect, Hfull. done.
Qed.

(** ** sendMessage (C9) *)

Lemma is_open_lookup (ws : nat) (w : WebSocket) (s : Provider) :
  sockets s !! ws = Some w → is_open ws s = true ↔ readyState w = OPEN.
Proof.
  intros Hw. unfold is_open, ws_readyState. rewrite Hw. simpl.
  by destruct (readyState w).
Qed.

(** C9: with a held socket that is open, [sendMessage] clears the
    suggestions and sends one frame on that socket, the first 10,000
    characters of the text (a prefix of the text of length
    [min 10000 length]; the text itself when it has at most 10,000
    characters; 10,000 characters of a text of 15,000). Without a held
    socket, or with one that is not open, it changes nothing. *)
Theorem sendMessage_sends_truncated (message : string) (s : Provider) :
  (∀ ws w,
     socket s = Some ws → sockets s !! ws = Some w → readyState w = OPEN →
     suggestions (sendMessage message s) = []
     ∧ sent <$> sockets (sendMessage message s) !! ws
         = Some (sent w ++ [slice_to MAX_MESSAGE_LENGTH message])
     ∧ (∀ other, other ≠ ws →
          sockets (sendMessage message s) !! other = sockets s !! other))
  ∧ (String.length (slice_to MAX_MESSAGE_LENGTH message)
       = 10000 `min` String.length message
     ∧ ∃ rest, message = slice_to MAX_MESSAGE_LENGTH message +:+ rest)
  ∧ (String.length message ≤ 10000 →
     slice_to MAX_MESSAGE_LENGTH message = message)
  ∧ (String.length message = 15000 →
     String.length (slice_to MAX_MESSAGE_LENGTH message) = 10000)
  ∧ (socket s = None → sendMessage message s = s)
  ∧ (∀ ws, socket s = Some ws → is_open ws s = false →
       sendMessage message s = s).
Proof.
  split; [|split; [|split; [|split; [|split]]]].
  - intros ws w Hsock Hw Hopen. unfold sendMessage.
    rewrite Hsock, (proj2 (is_open_lookup ws w s Hw) Hopen). cells.
    split; [done|]. split.
    + rewrite list_lookup_alter_eq, Hw. simpl. unfold sending.
      by rewrite Hopen.
    + intros other Hother. by rewrite list_lookup_alter_ne.
  - split; [apply slice_to_length | apply slice_to_prefix].
  - apply slice_to_short.
  - intros Hlen. rewrite slice_to_length, Hlen.
    change (10000 `min` 15000) with (Nat.min 10000 15000).
    rewrite Nat.min_l; [done|].
    apply Nat.leb_le. vm_compute. reflexivity.
  - intros Hsock. unfold sendMessage. by rewrite Hsock.
  - intros ws Hsock Hshut. unfold sendMessage. by rewrite Hsock, Hshut.
Qed.

(** ** The reconnect policy (C7) *)

Lemma should_reconnect_iff (s : Provider) :
  should_reconnect s = true
  ↔ intentionalCloseRef s = false ∧ is_Some (connParamsRef s)
    ∧ reconnectAttemptsRef s < 3.
Proof.
  unfold should_reconnect.
  rewrite !andb_true_iff, negb_true_iff, bool_decide_eq_true, Nat.ltb_lt.
  tauto.
Qed.

Lemma backoff_pow (n : nat) : backoff n = (2 ^ N.of_nat n * 1000)%N.
Proof. reflexivity. Qed.

Lemma onclose_armed (ws : nat) (s : Provider) :
  should_reconnect s = true →
  reconnectTimeoutRef (onclose ws s) = Some (nextTimer s)
  ∧ timers (onclose ws s) !! nextTimer s
      = Some (mkTimer (ReconnectTick ws) (backoff (reconnectAttemptsRef s))
                false)
  ∧ isReconnecting (onclose ws s) = true.
Proof.
  intros Harm. unfold onclose, seq, when, clearPingInterval.
  destruct (pingIntervalRef s) as [h|] eqn:Hping; cells;
    change (should_reconnect _) with (should_reconnect s);
    rewrite Harm; cells; by rewrite lookup_insert_eq.
Qed.

Lemma onclose_not_armed (ws : nat) (s : Provider) :
  should_reconnect s = false →
  timers (onclose ws s) = timers (clearPingInterval s)
  ∧ nextTimer (onclose ws s) = nextTimer s
  ∧ reconnectTimeoutRef (onclose ws s) = reconnectTimeoutRef s.
Proof.
  intros Hoff. unfold onclose, seq, when, clearPingInterval.
  destruct (pingIntervalRef s) as [h|] eqn:Hping; cells;
    change (should_reconnect _) with (should_reconnect s);
    by rewrite Hoff.
Qed.



(** *** Once the retries are used up *)




























Lemma clearPingInterval_cases (s : Provider) :
  clearPingInterval s = s
  ∨ ∃ h, clearPingInterval s = set_pingIntervalRef None (clearTimer h s).
Proof. unfold clearPingInterval. case_match; [right|left]; by eauto. Qed.

Lemma clearTimeout_of_cases (ws : nat) (s : Provider) :
  clearTimeout_of ws s = s ∨ ∃ h, clearTimeout_of ws s = clearTimer h s.
Proof. unfold clearTimeout_of. case_match; [right|left]; by eauto. Qed.

Lemma reconnect_catch_cases (s : Provider) :
  reconnect_catch s = s ∨ reconnect_catch s = setIsReconnecting false s.
Proof. unfold reconnect_catch, when. case_match; by eauto. Qed.

Lemma resolve_cases (ws : nat) (s : Provider) :
  resolve ws s = s
  ∨ resolve ws s = set_sockets (alter (settled Fulfilled) ws (sockets s)) s
  ∨ resolve ws s
    = reconnect_then
        (set_sockets (alter (settled Fulfilled) ws (sockets s)) s).
Proof. unfold resolve. repeat case_match; by eauto. Qed.

Lemma reject_cases (ws : nat) (s : Provider) :
  reject ws s = s
  ∨ reject ws s = set_sockets (alter (settled Rejected) ws (sockets s)) s
  ∨ reject ws s
    = reconnect_catch
        (set_sockets (alter (settled Rejected) ws (sockets s)) s).
Proof. unfold reject. repeat case_match; by eauto. Qed.

(** *** One reconnect chain *)



































Lemma connect_from_guarded (held : option nat) (o r : string)
    (t : option string) (s : Provider) :
  connectingRef s = true → connect_from held o r t s = (s, Returned).
Proof. intros Hguard. unfold connect_from. by rewrite Hguard. Qed.




(** ** The guard of connect (C10) *)

Lemma clearPingInterval_connectingRef (s : Provider) :
  connectingRef (clearPingInterval s) = connectingRef s.
Proof. unfold clearPingInterval. by case_match. Qed.



Lemma connect_guarded (o r : string) (t : option string) (s : Provider) :
  connectingRef s = true → connect o r t s = (s, Returned).
Proof. apply connect_from_guarded. Qed.











(** * Further properties of the provider *)

(** ** connect: validation and the socket it creates *)

Lemma all_safe_rejects (c : ascii) (text : string) :
  In c (list_ascii_of_string text) → safe_char c = false →
  all_safe text = false.
Proof.
  induction text as [|d text IH]; cbn [list_ascii_of_string In all_safe];
    [done|].
  intros [->|Hin] Hbad; [by rewrite Hbad|].
  rewrite (IH Hin Hbad). apply andb_false_r.
Qed.

Lemma unsafe_param_rejected (c : ascii) (text : string) :
  In c (list_ascii_of_string text) → safe_char c = false →
  SAFE_PARAM_REGEX_test text = false.
Proof.
  intros Hin Hbad. destruct text as [|d text]; [done|].
  by apply (all_safe_rejects c).
Qed.

(** X1: with the guard free, [connect] throws and leaves the provider
    untouched (no socket, no timer) when the owner or the repository name
    is empty, holds a character outside [A-Za-z0-9_.-], or is longer than
    100 characters. *)
Theorem connect_rejects_invalid
    (o r : string) (t : option string) (s : Provider) :
  connectingRef s = false →
  (o = "" ∨ r = ""
   ∨ (∃ c, (In c (list_ascii_of_string o) ∨ In c (list_ascii_of_string r))
           ∧ safe_char c = false)
   ∨ 100 < String.length o ∨ 100 < String.length r) →
  ∃ message, connect o r t s = (s, Threw message).
Proof.
  intros Hfree Hbad. unfold connect, connect_from. rewrite Hfree.
  destruct (negb (SAFE_PARAM_REGEX_test o) || negb (SAFE_PARAM_REGEX_test r))
    eqn:Hsafe; [by eexists|].
  apply orb_false_iff in Hsafe as [Ho Hr].
  apply negb_false_iff in Ho, Hr.
  destruct Hbad as [->|[->|[(c & Hin & Hc)|Hlong]]]; [done|done| |].
  - destruct Hin as [Hin|Hin].
    + by rewrite (unsafe_param_rejected c o Hin Hc) in Ho.
    + by rewrite (unsafe_param_rejected c r Hin Hc) in Hr.
  - assert ((100 <? String.length o) || (100 <? String.length r) = true)
      as ->; [|by eexists].
    apply orb_true_iff. destruct Hlong; [left|right]; by apply Nat.ltb_lt.
Qed.

Lemma valid_params_checks (o r : string) (t : option string) :
  valid_params (mkConnParams o r t) ↔
  negb (SAFE_PARAM_REGEX_test o) || negb (SAFE_PARAM_REGEX_test r) = false
  ∧ (100 <? String.length o) || (100 <? String.length r) = false.
Proof.
  unfold valid_params. cbn [owner repo].
  rewrite !orb_false_iff, !negb_false_iff, !Nat.ltb_ge. tauto.
Qed.

Lemma clearPingInterval_sockets (s : Provider) :
  sockets (clearPingInterval s) = sockets s.
Proof. unfold clearPingInterval. by case_match. Qed.

Lemma clearPingInterval_nextTimer (s : Provider) :
  nextTimer (clearPingInterval s) = nextTimer s.
Proof. unfold clearPingInterval. by case_match. Qed.

Lemma clearPingInterval_pingIntervalRef (s : Provider) :
  pingIntervalRef (clearPingInterval s) = None.
Proof. unfold clearPingInterval. by case_match. Qed.

Lemma onclose_flags (ws : nat) (s : Provider) :
  connectingRef (onclose ws s) = false
  ∧ isConnected (onclose ws s) = false
  ∧ sockets (onclose ws s) = sockets s.
Proof.
  unfold onclose, seq, when.
  match goal with
  | |- context [if ?c then _ else _] => destruct c
  end; cells; by rewrite clearPingInterval_sockets.
Qed.

(** The provider once [connect] has taken down what was there: the block
    from [connectingRef.current = true] to [clearPingInterval()]. *)
Lemma connect_accepted (o r : string) (t : option string) (s : Provider) :
  connectingRef s = false →
  valid_params (mkConnParams o r t) →
  ∃ s1,
    sockets s1 = match socket s with
                 | Some old => alter closing old (sockets s)
                 | None => sockets s
                 end
    ∧ nextTimer s1 = nextTimer s
    ∧ connect o r t s
      = ((new_WebSocket (mkConnParams o r t) (nextTimer s1) (socket s) >>
          setTimer (ConnectTimeout (length (sockets s1))) 60000 false >>
          setSocket (Some (length (sockets s1)))) s1,
         Created (length (sockets s1)))
    ∧ connectingRef s1 = true
    ∧ intentionalCloseRef s1 = false
    ∧ connParamsRef s1 = Some (mkConnParams o r t)
    ∧ pingIntervalRef s1 = None.
Proof.
  intros Hfree [Hsafe Hlen]%valid_params_checks.
  unfold connect, connect_from. rewrite Hfree, Hsafe, Hlen. cbn zeta.
  eexists. split; [|split; [|split; [reflexivity|]]].
  - unfold seq. rewrite clearPingInterval_sockets.
    by destruct (socket s).
  - unfold seq. rewrite clearPingInterval_nextTimer.
    by destruct (socket s).
  - unfold seq. rewrite clearPingInterval_pingIntervalRef.
    unfold clearPingInterval.
    by destruct (socket s); cells; destruct (pingIntervalRef s).
Qed.

(** X2: with the guard free and parameters that pass the checks,
    [connect] creates exactly one socket, the next handle: it is
    connecting, has sent nothing, targets the parameters and its promise
    is pending; a one-shot 60 s connect timeout is armed for it; the
    guard is engaged, the intentional-close flag cleared, the parameters
    remembered and the heartbeat cleared; the socket held before has had
    [close()] called, and no other socket is touched. *)
Theorem connect_creates_one_socket
    (o r : string) (t : option string) (s : Provider) :
  connectingRef s = false →
  valid_params (mkConnParams o r t) →
  let ws := length (sockets s) in
  let s' := fst (connect o r t s) in
  snd (connect o r t s) = Created ws
  ∧ sockets s'
      = match socket s with
        | Some old => alter closing old (sockets s)
        | None => sockets s
        end
        ++ [mkWebSocket CONNECTING [] (mkConnParams o r t) (nextTimer s)
              Pending Caller (socket s)]
  ∧ timers s' !! nextTimer s
      = Some (mkTimer (ConnectTimeout ws) 60000 false)
  ∧ socket s' = Some ws
  ∧ connectingRef s' = true
  ∧ intentionalCloseRef s' = false
  ∧ connParamsRef s' = Some (mkConnParams o r t)
  ∧ pingIntervalRef s' = None.
Proof.
  intros Hfree Hvalid ws s'. subst ws s'.
  destruct (connect_accepted o r t s Hfree Hvalid)
    as (s1 & Hsockets & Hnext & -> & Hguard & Hflag & Hparams & Hping).
  assert (length (sockets s1) = length (sockets s)) as Hsame.
  { rewrite Hsockets. destruct (socket s); [apply length_alter|done]. }
  cbn [fst snd]. cells. rewrite Hsame, Hnext, Hsockets, lookup_insert_eq.
  by repeat split.
Qed.

(** X3: a [connect] called right after an accepted [connect], before
    any event has been handled, is dropped: whatever its arguments, it
    returns at the guard, creates no socket and leaves the provider as
    the first call made it. The guard decides, not the promise of the
    first call: when that call replaced a live socket, the close event
    of the replaced socket releases the guard while the new socket is
    still connecting. *)
Theorem concurrent_connect_dropped
    (o r o' r' : string) (t t' : option string) (s : Provider) :
  connectingRef s = false →
  valid_params (mkConnParams o r t) →
  let s' := fst (connect o r t s) in
  connect o' r' t' s' = (s', Returned)
  ∧ length (sockets (fst (connect o' r' t' s'))) = S (length (sockets s))
  ∧ (∀ old w,
       socket s = Some old → sockets s !! old = Some w →
       readyState w ≠ CLOSED →
       let s'' := step (WsClose old) s' in
       connectingRef s'' = false
       ∧ (readyState <$> sockets s'' !! length (sockets s)) = Some CONNECTING
       ∧ (promise <$> sockets s'' !! length (sockets s)) = Some Pending).
Proof.
  intros Hfree Hvalid s'. subst s'.
  destruct (connect_accepted o r t s Hfree Hvalid)
    as (s1 & Hsockets & _ & -> & Hguard & _).
  cbn [fst].
  match goal with
  | |- connect _ _ _ ?s2 = _ ∧ _ =>
      assert (connectingRef s2 = true) as Hengaged by exact Hguard
  end.
  rewrite !(connect_guarded o' r' t' _ Hengaged). split; [done|].
  cbn [fst]. split.
  { cells. rewrite length_app, Hsockets. cbn [length].
    destruct (socket s); rewrite ?length_alter; lia. }
  intros old w Hheld Hold Hlive.
  set (s2 := (new_WebSocket _ _ _ >> _ >> _) s1).
  assert (length (sockets s1) = length (sockets s)) as Hlen.
  { rewrite Hsockets, Hheld. apply length_alter. }
  assert (sockets s2 !! old = Some (closing w)) as Hold2.
  { subst s2. cells. rewrite Hsockets, Hheld.
    rewrite lookup_app_l.
    - by rewrite list_lookup_alter_eq, Hold.
    - rewrite length_alter. by apply lookup_lt_Some in Hold. }
  assert (readyState (closing w) = CLOSING) as Hclosing.
  { unfold closing. by destruct (readyState w) eqn:Hstate. }
  assert (step (WsClose old) s2 = onclose old (ws_become old CLOSED s2)) as ->.
  { cbn [step]. unfold ws_readyState. rewrite Hold2. cbn.
    by rewrite Hclosing. }
  destruct (onclose_flags old (ws_become old CLOSED s2)) as (-> & _ & ->).
  split; [done|].
  assert (old ≠ length (sockets s)) as Hne.
  { apply lookup_lt_Some in Hold. lia. }
  cells. rewrite !list_lookup_alter_ne by exact Hne.
  subst s2. cells. rewrite <- Hlen.
  by rewrite !lookup_app_r, Nat.sub_diag by lia.
Qed.

(** ** ws.onmessage: the rules the claims leave out *)

Lemma recoverable_frame_effect (ws : nat) (tok : string) (s : Provider) :
  tok ∈ chat_recoverable →
  ∃ text,
    onmessage ws tok s =
      (setErrorMessage (Some text) >> setStatusMessage None >>
       setIsStreaming false >> setStreamingContent None) s.
Proof.
  unfold chat_recoverable. intros Htok.
  repeat (apply elem_of_cons in Htok as [->|Htok]; [by eexists|]).
  by apply elem_of_nil in Htok.
Qed.

(** X4: each of the four chat-phase error tokens sets its toast text as
    [errorMessage], clears the status and the stream, and keeps the
    connection: no socket is closed, the held socket, [isConnected],
    [isProcessing], [lastMessage], the guard of [connect] and the timers
    are as before. *)
Theorem recoverable_errors_keep_connection (ws : nat) (s : Provider) :
  (errorMessage (onmessage ws "error:timeout" s)
     = Some "Response timed out. Please try a simpler question."
   ∧ errorMessage (onmessage ws "error:keys_exhausted" s)
     = Some "Service temporarily unavailable. Please try again in a few minutes."
   ∧ errorMessage (onmessage ws "error:generation_failed" s)
     = Some "Something went wrong. Please try again."
   ∧ errorMessage (onmessage ws "error:retrieval_failed" s)
     = Some "Something went wrong. Please try again.")
  ∧ Forall
      (fun tok =>
         let s' := onmessage ws tok s in
         sockets s' = sockets s
         ∧ socket s' = socket s
         ∧ isConnected s' = isConnected s
         ∧ isProcessing s' = isProcessing s
         ∧ lastMessage s' = lastMessage s
         ∧ connectingRef s' = connectingRef s
         ∧ timers s' = timers s
         ∧ statusMessage s' = None
         ∧ isStreaming s' = false
         ∧ streamingContent s' = None)
      chat_recoverable.
Proof.
  split; [by repeat split|].
  apply Forall_forall. intros tok Htok.
  destruct (recoverable_frame_effect ws tok s Htok) as [text ->].
  by repeat split.
Qed.

Lemma status_frame_effect (ws : nat) (key : string) (s : Provider) :
  onmessage ws ("status:" +:+ key) s
  = setStatusMessage
      (Some (match statusMap !! key with
             | Some display => StatusText display
             | None =>
                 if inherits key then inherited key (statusMessage s)
                 else StatusText key
             end)) s.
Proof.
  unfold onmessage. decide_tests. rewrite startsWith_app.
  rewrite (slice_from_app "status:" key). by repeat case_match.
Qed.

Lemma inherits_iff (key : string) :
  inherits key = true ↔ key ∈ Object_prototype_keys.
Proof.
  unfold inherits. rewrite existsb_exists. split.
  - intros (name & Hin & Heq). apply str_eq_true in Heq. subst.
    by apply list_elem_of_In.
  - intros Hin. exists key. split; [by apply list_elem_of_In|].
    by apply str_eq_true.
Qed.

Lemma inherited_not_own (key : string) :
  key ∈ Object_prototype_keys → statusMap !! key = None.
Proof.
  unfold Object_prototype_keys. intros Hkey.
  repeat (apply elem_of_cons in Hkey as [->|Hkey]; [reflexivity|]).
  by apply elem_of_nil in Hkey.
Qed.

Lemma inherited_not_verbatim (key : string) (prev : option StatusValue) :
  key ∈ Object_prototype_keys → inherited key prev ≠ StatusText key.
Proof.
  unfold Object_prototype_keys. intros Hkey.
  repeat (apply elem_of_cons in Hkey as [->|Hkey];
          [by destruct prev as [[]|]|]).
  by apply elem_of_nil in Hkey.
Qed.

(** X5: a [status:] frame changes [statusMessage] and nothing else. The
    five keys of the table give their text. A key that names a member of
    [Object.prototype] finds that member, and what is stored is not the
    key: after [null], [constructor] stores an empty object, [toString]
    the text ["[object Undefined]"], [isPrototypeOf] the value [false],
    [__proto__] the prototype object, and [hasOwnProperty] and [valueOf]
    make the update throw. Any other key, the empty one included, is
    passed through verbatim. *)
Theorem status_frame_mapping (ws : nat) (key : string) (s : Provider) :
  let s' := onmessage ws ("status:" +:+ key) s in
  s' = setStatusMessage (statusMessage s') s
  ∧ (key = "cloning" →
     statusMessage s' = Some (StatusText "Fetching repository..."))
  ∧ (key = "chunking" →
     statusMessage s' = Some (StatusText "Analyzing code structure..."))
  ∧ (key = "indexing" →
     statusMessage s' = Some (StatusText "Building knowledge base..."))
  ∧ (key = "searching" →
     statusMessage s' = Some (StatusText "Searching codebase..."))
  ∧ (key = "thinking" →
     statusMessage s' = Some (StatusText "Generating response..."))
  ∧ (key ∈ Object_prototype_keys →
     statusMessage s' = Some (inherited key (statusMessage s))
     ∧ statusMessage s' ≠ Some (StatusText key))
  ∧ (statusMessage s = None →
     inherited "constructor" (statusMessage s) = EmptyObject
     ∧ inherited "toString" (statusMessage s)
       = StatusText "[object Undefined]"
     ∧ inherited "isPrototypeOf" (statusMessage s) = StatusFalse
     ∧ inherited "__proto__" (statusMessage s) = ObjectPrototype
     ∧ inherited "hasOwnProperty" (statusMessage s) = UpdaterThrows
     ∧ inherited "valueOf" (statusMessage s) = UpdaterThrows)
  ∧ (key ∉ ["cloning"; "chunking"; "indexing"; "searching"; "thinking"] →
     key ∉ Object_prototype_keys →
     statusMessage s' = Some (StatusText key)).
Proof.
  intros s'. subst s'. rewrite status_frame_effect. cells.
  split; [done|].
  do 5 (split; [by intros ->|]).
  split; [|split].
  - intros Hkey.
    rewrite (inherited_not_own key Hkey), (proj2 (inherits_iff key) Hkey).
    split; [done|]. intros [= Heq].
    by apply (inherited_not_verbatim key (statusMessage s)).
  - by intros ->.
  - intros Hown Hproto. unfold statusMap.
    rewrite (not_elem_of_list_to_map_1 _ key); [|exact Hown].
    destruct (inherits key) eqn:Hin; [|done].
    by apply inherits_iff in Hin.
Qed.

Lemma metadata_frame_effect (ws : nat) (payload : string) (s : Provider) :
  onmessage ws ("metadata:" +:+ payload) s
  = match JSON_parse payload with
    | Some parsed => setRepoMetadata (nullable parsed) s
    | None => s
    end.
Proof.
  unfold onmessage. decide_tests. rewrite startsWith_app.
  rewrite (slice_from_app "metadata:" payload). by case_match.
Qed.

Lemma suggestions_frame_effect (ws : nat) (payload : string) (s : Provider) :
  onmessage ws ("suggestions:" +:+ payload) s
  = match JSON_parse payload with
    | Some parsed =>
        match isArray parsed with
        | Some items => setSuggestions items s
        | None => s
        end
    | None => s
    end.
Proof.
  unfold onmessage. decide_tests. rewrite startsWith_app.
  rewrite (slice_from_app "suggestions:" payload). by repeat case_match.
Qed.

(** X6: when [JSON.parse] throws on what follows [metadata:] or
    [suggestions:], the frame leaves the whole provider as it was; so
    does a [suggestions:] frame whose text parses to something that is
    not an array. A text that parses sets [repoMetadata] (to [null] for
    JSON [null]), and an array sets [suggestions]; in both cases
    nothing else changes. *)
Theorem json_frames_best_effort (ws : nat) (payload : string) (s : Provider) :
  (JSON_parse payload = None →
   onmessage ws ("metadata:" +:+ payload) s = s
   ∧ onmessage ws ("suggestions:" +:+ payload) s = s)
  ∧ (∀ parsed,
       JSON_parse payload = Some parsed →
       onmessage ws ("metadata:" +:+ payload) s
         = setRepoMetadata (nullable parsed) s
       ∧ (isArray parsed = None →
          onmessage ws ("suggestions:" +:+ payload) s = s)
       ∧ (∀ items,
            isArray parsed = Some items →
            onmessage ws ("suggestions:" +:+ payload) s
              = setSuggestions items s)).
Proof.
  rewrite metadata_frame_effect, suggestions_frame_effect. split.
  - by intros ->.
  - intros parsed ->. split; [done|]. split; [by intros ->|].
    by intros items ->.
Qed.

(** X7: whatever the frame, [ws.onmessage] sends nothing, arms and
    cancels no timer, creates no socket, and leaves [isConnected],
    [isReconnecting], the held socket and every ref but the guard of
    [connect] alone; the only thing it may do to a socket is to call
    [close()] on its own. *)
Theorem onmessage_footprint (ws : nat) (data : string) (s : Provider) :
  let s' := onmessage ws data s in
  (sockets s' = sockets s ∨ sockets s' = alter closing ws (sockets s))
  ∧ timers s' = timers s
  ∧ nextTimer s' = nextTimer s
  ∧ socket s' = socket s
  ∧ isConnected s' = isConnected s
  ∧ isReconnecting s' = isReconnecting s
  ∧ pingIntervalRef s' = pingIntervalRef s
  ∧ intentionalCloseRef s' = intentionalCloseRef s
  ∧ reconnectAttemptsRef s' = reconnectAttemptsRef s
  ∧ reconnectTimeoutRef s' = reconnectTimeoutRef s
  ∧ connParamsRef s' = connParamsRef s.
Proof.
  intros s'. subst s'. unfold onmessage, seq, skip.
  repeat case_match; cells; repeat split; auto.
Qed.

Lemma feed_app (ws : nat) (front back : list string) (s : Provider) :
  feed ws (front ++ back) s = feed ws back (feed ws front s).
Proof. unfold feed. apply foldl_app. Qed.

Lemma feed_chunks_lastMessage (ws : nat) (chunks : list string)
    (s : Provider) :
  lastMessage (feed ws (chunk_frame <$> chunks) s) = lastMessage s.
Proof.
  destruct chunks as [|chunk rest]; [done|].
  by destruct (feed_chunks ws (chunk :: rest) s) as (_ & _ & Hlast).
Qed.

(** X8: a chat-phase error in the middle of a stream drops the partial
    answer: after any chunk frames, one of the four error tokens and then
    [stream:end], [lastMessage] is what it was before the stream, the
    buffer is empty and [isStreaming] is false. *)
Theorem failed_stream_promotes_nothing
    (ws : nat) (chunks : list string) (tok : string) (s : Provider) :
  tok ∈ chat_recoverable →
  let s' := feed ws ((chunk_frame <$> chunks) ++ [tok; "stream:end"]) s in
  lastMessage s' = lastMessage s
  ∧ streamingContent s' = None
  ∧ isStreaming s' = false.
Proof.
  intros Htok s'. subst s'. rewrite feed_app.
  set (s1 := feed ws (chunk_frame <$> chunks) s).
  assert (lastMessage s1 = lastMessage s) as <-
    by apply feed_chunks_lastMessage.
  unfold feed. cbn [foldl].
  destruct (recoverable_frame_effect ws tok s1 Htok) as [text ->].
  by rewrite stream_end_effect.
Qed.

(** ** disconnect *)

(** Evaluates the plain setters on a provider given by its constructor. *)
Ltac evaluate :=
  cbv beta iota zeta delta
    [seq when skip
     setSocket setIsConnected setIsProcessing setLastMessage setSuggestions
     setRepoMetadata setIsReconnecting setStatusMessage setStreamingContent
     setIsStreaming setErrorMessage set_connectingRef set_pingIntervalRef
     set_intentionalCloseRef set_reconnectAttemptsRef
     set_reconnectTimeoutRef set_connParamsRef set_sockets set_timers
     set_nextTimer
     socket isConnected isProcessing lastMessage suggestions repoMetadata
     isReconnecting statusMessage streamingContent isStreaming errorMessage
     connectingRef pingIntervalRef intentionalCloseRef reconnectAttemptsRef
     reconnectTimeoutRef connParamsRef sockets timers nextTimer
     ws_close clearTimer clearPingInterval disconnect].

(** X9: [disconnect] is idempotent: a second call in a row changes
    nothing. *)
Theorem disconnect_idempotent (s : Provider) :
  disconnect (disconnect s) = disconnect s.
Proof.
  destruct s as [sock ? ? ? ? ? ? ? ? ? ? ? ping ? ? retry ? ? tm ?].
  destruct retry, ping, sock; evaluate; reflexivity.
Qed.

(** ** Invariants of the event loop *)

Lemma transparent_closing : transparent closing.
Proof. intros w. unfold closing. by destruct (readyState w). Qed.

Lemma transparent_become (r : ReadyState) : transparent (become r).
Proof. by intros w. Qed.

Lemma transparent_settled (p : PromiseState) : transparent (settled p).
Proof. by intros w. Qed.

Lemma transparent_awaited_by (wt : Waiter) : transparent (awaited_by wt).
Proof. by intros w. Qed.

(** A property of the provider that every handler keeps, given that the
    primitive actions keep it. It may read the sockets, the timers, the
    remembered parameters and the intentional-close flag only. [connects]
    says whether calls of [connect] (by the caller or by the reconnect
    timer) are among the events considered; when they are not, the
    property must exclude a pending reconnect timer. *)
Section Stable.

Variable I : Provider → Prop.
Variable connects : bool.

Hypothesis I_plain :
  ∀ a : Action,
    (∀ s, sockets (a s) = sockets s) → (∀ s, timers (a s) = timers s) →
    (∀ s, connParamsRef (a s) = connParamsRef s) →
    (∀ s, intentionalCloseRef (a s) = intentionalCloseRef s) →
    ∀ s, I s → I (a s).
Hypothesis I_alter :
  ∀ f ws s, transparent f → I s → I (set_sockets (alter f ws (sockets s)) s).
Hypothesis I_send :
  ∀ ws data s,
    String.length data ≤ MAX_MESSAGE_LENGTH → I s → I (ws_send ws data s).
Hypothesis I_new :
  ∀ p h held s, valid_params p → I s → I (new_WebSocket p h held s).
Hypothesis I_params :
  ∀ p s, valid_params p → I s → I (set_connParamsRef (Some p) s).
Hypothesis I_clearTimer : ∀ h s, I s → I (clearTimer h s).
Hypothesis I_setTimer :
  ∀ cb ms rep s,
    (∀ ws, cb ≠ ReconnectTick ws) → I s → I (setTimer cb ms rep s).
Hypothesis I_arm :
  ∀ ws ms s,
    intentionalCloseRef s = false → I s →
    I (setTimer (ReconnectTick ws) ms false s).
Hypothesis I_intend : ∀ s, I s → I (set_intentionalCloseRef true s).
Hypothesis I_unflag :
  connects = true → ∀ s, I s → I (set_intentionalCloseRef false s).
Hypothesis I_quiet :
  connects = false →
  ∀ h t s, I s → timers s !! h = Some t → ∀ ws, callback t ≠ ReconnectTick ws.

Ltac keep_one :=
  lazymatch goal with
  | |- I (clearPingInterval ?s0) =>
      destruct (clearPingInterval_cases s0) as [->|[? ->]]
  | |- I (clearTimeout_of ?ws ?s0) =>
      destruct (clearTimeout_of_cases ws s0) as [->|[? ->]]
  | |- I (resolve ?ws ?s0) =>
      destruct (resolve_cases ws s0) as [->|[->| ->]]
  | |- I (reject ?ws ?s0) =>
      destruct (reject_cases ws s0) as [->|[->| ->]]
  | |- I (reconnect_catch ?s0) =>
      destruct (reconnect_catch_cases s0) as [->| ->]
  | |- I (ws_close _ _) => apply I_alter; [apply transparent_closing|]
  | |- I (ws_become _ _ _) => apply I_alter; [apply transparent_become|]
  | |- I (set_sockets (alter (settled _) _ _) _) =>
      apply I_alter; [apply transparent_settled|]
  | |- I (set_sockets (alter (awaited_by _) _ _) _) =>
      apply I_alter; [apply transparent_awaited_by|]
  | |- I (new_WebSocket _ _ _ _) => apply I_new; [assumption|]
  | |- I (set_connParamsRef (Some _) _) => apply I_params; [assumption|]
  | |- I (set_intentionalCloseRef true _) => apply I_intend
  | |- I (set_intentionalCloseRef false _) => apply I_unflag; [assumption|]
  | |- I (clearTimer _ _) => apply I_clearTimer
  | |- I (setTimer _ _ _ _) => apply I_setTimer; [discriminate|]
  | |- I (?a ?s0) => apply (I_plain a); [intros; reflexivity..|]
  end.

Ltac keep := repeat first [assumption | progress cbn beta | keep_one].

Lemma stable_onmessage (ws : nat) (data : string) (s : Provider) :
  I s → I (onmessage ws data s).
Proof. intros Hs. unfold onmessage, seq, skip. repeat case_match; keep. Qed.

Lemma stable_onopen (ws : nat) (s : Provider) : I s → I (onopen ws s).
Proof. intros Hs. unfold onopen, seq. keep. Qed.

Lemma stable_onerror (ws : nat) (s : Provider) : I s → I (onerror ws s).
Proof. intros Hs. unfold onerror, seq. keep. Qed.

Lemma clearPingInterval_intentionalCloseRef (s : Provider) :
  intentionalCloseRef (clearPingInterval s) = intentionalCloseRef s.
Proof. unfold clearPingInterval. by case_match. Qed.

Lemma stable_onclose (ws : nat) (s : Provider) : I s → I (onclose ws s).
Proof.
  intros Hs. unfold onclose, seq, when.
  destruct (should_reconnect _) eqn:Harm; [|keep].
  apply should_reconnect_iff in Harm as (Hflag & _ & _).
  change (intentionalCloseRef (clearPingInterval s) = false) in Hflag.
  cbn beta zeta. apply I_arm; [exact Hflag|]. keep.
Qed.

Lemma stable_sendMessage (message : string) (s : Provider) :
  I s → I (sendMessage message s).
Proof.
  intros Hs. unfold sendMessage, seq. repeat case_match; try done.
  apply I_send; [|keep].
  rewrite slice_to_length. apply Nat.le_min_l.
Qed.

Lemma stable_disconnect (s : Provider) : I s → I (disconnect s).
Proof. intros Hs. unfold disconnect, seq. repeat case_match; keep. Qed.

Lemma stable_connect_from (held : option nat) (o r : string)
    (t : option string) (s : Provider) :
  connects = true → I s → I (fst (connect_from held o r t s)).
Proof.
  intros Hconnects Hs. unfold connect_from.
  destruct (connectingRef s); [done|].
  destruct (negb _ || negb _) eqn:Hsafe; [done|].
  destruct ((_ <? _) || (_ <? _)) eqn:Hlen; [done|].
  assert (valid_params (mkConnParams o r t)) as Hvalid
    by by apply valid_params_checks.
  cbn [fst]. unfold seq, skip. destruct held; keep.
Qed.

Lemma stable_connect (o r : string) (t : option string) (s : Provider) :
  connects = true → I s → I (fst (connect o r t s)).
Proof. apply stable_connect_from. Qed.

Lemma stable_reconnect_tick (ws : nat) (s : Provider) :
  connects = true → I s → I (reconnect_tick ws s).
Proof.
  intros Hconnects Hs. unfold reconnect_tick. cbn zeta.
  set (s1 := set_reconnectAttemptsRef _ s).
  assert (I s1) as Hs1 by (subst s1; keep).
  destruct (connParamsRef s1) as [params|]; [|done].
  pose proof (stable_connect_from (socket_seen_by ws s1) (owner params)
                (repo params) (githubToken params) s1 Hconnects Hs1) as Hs2.
  destruct (connect_from _ _ _ _ s1) as [s2 [|message|made]];
    cbn [fst] in Hs2; keep.
Qed.

Lemma stable_step (e : Event) (s : Provider) :
  allowed connects e = true → I s → I (step e s).
Proof.
  intros He Hs. destruct e as [o r t| |m|ws|ws data|ws|ws|h]; cbn [step].
  - unfold allowed in He. cbn in He. rewrite orb_false_r in He.
    by apply stable_connect.
  - by apply stable_disconnect.
  - by apply stable_sendMessage.
  - repeat case_match; try done. unfold seq.
    apply stable_onopen. keep.
  - case_match; [|done]. by apply stable_onmessage.
  - repeat case_match; try done; by apply stable_onerror.
  - repeat case_match; try done; unfold seq; apply stable_onclose; keep.
  - destruct (timers s !! h) as [t|] eqn:Hh; [|done]. cbn zeta.
    destruct (callback t) as [ws|ws|ws] eqn:Hcb.
    + unfold connect_timeout, seq. destruct (repeating t); keep.
    + unfold ping_tick, when.
      destruct (repeating t); (case_match; [|keep]);
        (apply I_send; [vm_compute; lia|keep]).
    + destruct (sumbool_of_bool connects) as [Hconnects|Hconnects].
      * apply stable_reconnect_tick; [done|]. destruct (repeating t); keep.
      * by destruct (I_quiet Hconnects h t s Hs Hh ws).
Qed.

Lemma stable_run (es : list Event) (s : Provider) :
  forallb (allowed connects) es = true → I s → I (run es s).
Proof.
  revert s. induction es as [|e es IH]; intros s Hes Hs; [done|].
  cbn [forallb] in Hes. apply andb_true_iff in Hes as [He Hes].
  change (run (e :: es) s) with (run es (step e s)).
  by apply IH, stable_step.
Qed.

End Stable.


Lemma allowed_all (es : list Event) : forallb (allowed true) es = true.
Proof. by induction es. Qed.

Lemma targets_valid_alter (f : WebSocket → WebSocket) (ws : nat)
    (s : Provider) :
  (∀ w, target (f w) = target w) →
  targets_valid s → targets_valid (set_sockets (alter f ws (sockets s)) s).
Proof.
  intros Hf [Hparams Hsockets]. split; [done|]. cells.
  apply Forall_alter; [done|]. intros w _ Hw. by rewrite Hf.
Qed.

(** X10: in every run of events from the initial provider, the
    remembered connection parameters and the target of every socket ever
    created have passed the checks of [connect]: owner and repository
    match [SAFE_PARAM_REGEX] and have at most 100 characters. The
    reconnect timer therefore never connects to anything the caller did
    not have validated. *)
Theorem targets_always_valid (es : list Event) :
  targets_valid (run es initial).
Proof.
  apply (stable_run targets_valid true); try done.
  - intros a Hsockets _ Hparams _ s [Hp Hs]. split.
    + by rewrite Hparams.
    + by rewrite Hsockets.
  - intros f ws s Hf. apply targets_valid_alter. intros w. apply Hf.
  - intros ws data s _. apply targets_valid_alter.
    intros w. unfold sending. by destruct (readyState w).
  - intros p h held s Hvalid [Hp Hs]. split; [done|]. cells.
    apply Forall_app_2; [done|]. constructor; [exact Hvalid|constructor].
  - intros p s Hvalid [Hp Hs]. split; [|done]. cells. by intros ? [= <-].
  - apply allowed_all.
Qed.

Lemma frames_capped_alter (f : WebSocket → WebSocket) (ws : nat)
    (s : Provider) :
  (∀ w, Forall (fun frame => String.length frame ≤ MAX_MESSAGE_LENGTH) (sent w) →
        Forall (fun frame => String.length frame ≤ MAX_MESSAGE_LENGTH)
          (sent (f w))) →
  frames_capped s → frames_capped (set_sockets (alter f ws (sockets s)) s).
Proof.
  intros Hf Hs. unfold frames_capped. cells.
  apply Forall_alter; [done|]. intros w _. apply Hf.
Qed.

(** X11: in every run of events from the initial provider, no frame sent
    on any socket is longer than 10,000 characters: what goes out is the
    heartbeat ["ping"] or a text cut by [sendMessage]. *)
Theorem outbound_frames_capped (es : list Event) :
  frames_capped (run es initial).
Proof.
  apply (stable_run frames_capped true); try done.
  - intros a Hsockets _ _ _ s Hs. unfold frames_capped. by rewrite Hsockets.
  - intros f ws s Hf. apply frames_capped_alter.
    intros w. by rewrite (proj2 (Hf w)).
  - intros ws data s Hdata. apply frames_capped_alter.
    intros w Hw. unfold sending. destruct (readyState w); try done.
    cbn [sent]. apply Forall_app_2; [done|].
    constructor; [exact Hdata|constructor].
  - intros p h held s _ Hs. unfold frames_capped. cells.
    apply Forall_app_2; [done|]. by repeat constructor.
  - apply allowed_all.
  - constructor.
Qed.

Lemma disconnect_intentionalCloseRef (s : Provider) :
  intentionalCloseRef (disconnect s) = true.
Proof.
  unfold disconnect, seq, clearPingInterval, seq. cells.
  destruct (reconnectTimeoutRef s); cells;
    destruct (pingIntervalRef s); cells; by destruct (socket s).
Qed.

Lemma disconnect_timers (s : Provider) (h : nat) (t : Timer) :
  timers (disconnect s) !! h = Some t →
  timers s !! h = Some t ∧ reconnectTimeoutRef s ≠ Some h.
Proof.
  unfold disconnect, seq, clearPingInterval, seq. cells.
  destruct (reconnectTimeoutRef s) as [hr|]; cells;
    destruct (pingIntervalRef s) as [hp|]; cells;
    destruct (socket s); cells;
    rewrite ?lookup_delete_Some; naive_solver.
Qed.

Lemma disconnect_disconnected (s : Provider) :
  reconnect_timer_tracked s → disconnected (disconnect s).
Proof.
  intros Htracked. split; [apply disconnect_intentionalCloseRef|].
  intros h t Hh ws Hcb. apply disconnect_timers in Hh as [Hh Hother].
  by apply Hother, (Htracked h t ws).
Qed.

Lemma disconnected_stays (es : list Event) (s : Provider) :
  forallb (allowed false) es = true →
  disconnected s → disconnected (run es s).
Proof.
  apply (stable_run disconnected false).
  - intros a _ Htimers _ Hflag t [Ht Hnone]. split.
    + by rewrite Hflag.
    + unfold no_reconnect_timer. by rewrite Htimers.
  - by intros f ws t _.
  - by intros ws data t _.
  - by intros p h held t _.
  - by intros p t _.
  - intros h t [Ht Hnone]. split; [done|]. by apply map_Forall_delete.
  - intros cb ms rep t Hcb [Ht Hnone]. split; [done|].
    by apply map_Forall_insert_2.
  - intros ws ms t Hflag [Ht _]. cbn in *. congruence.
  - by intros t [_ Hnone].
  - done.
  - intros _ h t u [_ Hnone] Hh. exact (Hnone h t Hh).
Qed.

(** X12: [disconnect] stops the auto-reconnect. The close event that
    follows it arms nothing; and when the only reconnect timer that can
    be pending is the one [reconnectTimeoutRef] holds, then over every
    run of events without a call of [connect] the close stays flagged
    intentional, no reconnect timer is pending and a close event still
    arms nothing. *)
Theorem disconnect_stops_reconnects (es : list Event) (s : Provider) :
  reconnect_timer_tracked s →
  forallb (fun e => negb (is_connect e)) es = true →
  should_reconnect (disconnect s) = false
  ∧ intentionalCloseRef (run es (disconnect s)) = true
  ∧ no_reconnect_timer (run es (disconnect s))
  ∧ should_reconnect (run es (disconnect s)) = false.
Proof.
  intros Htracked Hes.
  assert (∀ t, disconnected t → should_reconnect t = false) as Hoff.
  { intros t [Ht _]. unfold should_reconnect. by rewrite Ht. }
  pose proof (disconnect_disconnected s Htracked) as Hs.
  pose proof (disconnected_stays es (disconnect s) Hes Hs) as Hrun.
  split; [by apply Hoff|]. destruct Hrun as [Hflag Hnone].
  repeat split; [done..|]. by apply Hoff.
Qed.


(** ** A reconnect attempt that fails *)

Lemma reject_pending (ws : nat) (w : WebSocket) (s : Provider) :
  sockets s !! ws = Some w →
  promise w = Pending →
  reject ws s =
    (match waiter w with
     | ReconnectChain => reconnect_catch
     | Caller => skip
     end) (set_sockets (alter (settled Rejected) ws (sockets s)) s).
Proof.
  intros Hw Hpend. unfold reject. rewrite Hw, Hpend. by destruct (waiter w).
Qed.

(** What [reconnect_catch] leaves alone. *)
Lemma reconnect_catch_frame (s : Provider) :
  sockets (reconnect_catch s) = sockets s
  ∧ timers (reconnect_catch s) = timers s
  ∧ nextTimer (reconnect_catch s) = nextTimer s
  ∧ reconnectAttemptsRef (reconnect_catch s) = reconnectAttemptsRef s
  ∧ intentionalCloseRef (reconnect_catch s) = intentionalCloseRef s
  ∧ connParamsRef (reconnect_catch s) = connParamsRef s
  ∧ connectingRef (reconnect_catch s) = connectingRef s
  ∧ isConnected (reconnect_catch s) = isConnected s
  ∧ isReconnecting (reconnect_catch s)
    = (if 3 <=? reconnectAttemptsRef s then false else isReconnecting s).
Proof. unfold reconnect_catch, when. by case_match. Qed.

Lemma onerror_of_reconnect (ws : nat) (w : WebSocket) (s : Provider) :
  sockets s !! ws = Some w →
  promise w = Pending →
  waiter w = ReconnectChain →
  onerror ws s =
    reconnect_catch
      (set_sockets (alter (settled Rejected) ws (sockets s))
         (setIsProcessing false
            (setIsConnected false
               (set_connectingRef false (clearTimer (timeout w) s))))).
Proof.
  intros Hw Hpend Hchain. unfold onerror, seq.
  rewrite (clearTimeout_of_lookup ws w s Hw).
  rewrite (reject_pending ws w); [|exact Hw|exact Hpend].
  by rewrite Hchain.
Qed.

Lemma onclose_isReconnecting (ws : nat) (s : Provider) :
  should_reconnect s = false →
  isReconnecting (onclose ws s) = isReconnecting s.
Proof.
  intros Hoff. unfold onclose, seq, when, clearPingInterval.
  destruct (pingIntervalRef s) as [h|] eqn:Hping; cells;
    change (should_reconnect _) with (should_reconnect s);
    by rewrite Hoff.
Qed.

(** X13: a reconnect attempt that fails before it opens (error event,
    then close event, on a connecting socket made by the reconnect
    timer) rejects its promise, releases the guard and closes the
    socket. While fewer than three attempts have been made the close
    arms the next reconnect timer, with delay [2 ^ attempts * 1000] ms,
    and [isReconnecting] is true; from the third attempt on nothing is
    armed and [isReconnecting] is false. *)
Theorem failed_reconnect_attempt (ws : nat) (w : WebSocket) (s : Provider) :
  sockets s !! ws = Some w →
  readyState w = CONNECTING →
  promise w = Pending →
  waiter w = ReconnectChain →
  intentionalCloseRef s = false →
  is_Some (connParamsRef s) →
  let s' := run [WsError ws; WsClose ws] s in
  sockets s' !! ws
    = Some (mkWebSocket CLOSED (sent w) (target w) (timeout w) Rejected
              ReconnectChain (closure_socket w))
  ∧ connectingRef s' = false
  ∧ isConnected s' = false
  ∧ if reconnectAttemptsRef s <? 3
    then isReconnecting s' = true
         ∧ timers s' !! nextTimer s
           = Some (mkTimer (ReconnectTick ws) (backoff (reconnectAttemptsRef s))
                     false)
    else isReconnecting s' = false ∧ nextTimer s' = nextTimer s.
Proof.
  intros Hw Hconn Hpend Hchain Hflag Hparams s'. subst s'.
  change (run [WsError ws; WsClose ws] s)
    with (step (WsClose ws) (step (WsError ws) s)).
  assert (step (WsError ws) s = onerror ws s) as ->.
  { cbn [step]. unfold ws_readyState. rewrite Hw. cbn. by rewrite Hconn. }
  rewrite (onerror_of_reconnect ws w s Hw Hpend Hchain).
  set (s0 := set_sockets _ _).
  destruct (reconnect_catch_frame s0)
    as (Hsockets & Htimers & Hnext & Hcap & Hintent & Hremembered & Hguard
        & Hconnected & Hre).
  set (s1 := reconnect_catch s0) in *.
  assert (sockets s1 !! ws = Some (settled Rejected w)) as Hw1.
  { rewrite Hsockets. subst s0. cells.
    by rewrite list_lookup_alter_eq, Hw. }
  assert (step (WsClose ws) s1 = onclose ws (ws_become ws CLOSED s1)) as ->.
  { cbn [step]. unfold ws_readyState. rewrite Hw1. cbn. by rewrite Hconn. }
  set (s2 := ws_become ws CLOSED s1).
  assert (should_reconnect s2 = (reconnectAttemptsRef s <? 3)) as Harm.
  { unfold should_reconnect. subst s2. cells.
    rewrite Hintent, Hremembered, Hcap. subst s0. cells.
    by rewrite Hflag, bool_decide_eq_true_2. }
  assert (nextTimer s2 = nextTimer s) as Hnext2.
  { subst s2. cells. rewrite Hnext. by subst s0. }
  assert (reconnectAttemptsRef s2 = reconnectAttemptsRef s) as Hcap2.
  { subst s2. cells. rewrite Hcap. by subst s0. }
  destruct (onclose_flags ws s2) as (Hguard2 & Hconnected2 & Hsockets2).
  split; [|split; [exact Hguard2|split; [exact Hconnected2|]]].
  - rewrite Hsockets2. subst s2. cells.
    rewrite list_lookup_alter_eq, Hw1. cbn.
    unfold become, settled. cbn. by rewrite Hchain.
  - destruct (reconnectAttemptsRef s <? 3) eqn:Hleft.
    + destruct (onclose_armed ws s2 Harm) as (_ & Harmed & Hre2).
      by rewrite Hnext2, Hcap2 in Harmed.
    + destruct (onclose_not_armed ws s2 Harm) as (_ & Hsame & _).
      rewrite Hsame, Hnext2, (onclose_isReconnecting ws s2 Harm).
      split; [|done]. subst s2. cells. rewrite Hre.
      apply Nat.ltb_ge in Hleft. subst s0. cells.
      by destruct (Nat.leb_spec 3 (reconnectAttemptsRef s)); [|lia].
Qed.

End Properties.

(** * The chat page *)

Section ChatProperties.

Context {text : Chat.Text}.

(** ** Persisting the conversation *)

Lemma slice_last_length {A : Type} (n : nat) (l : list A) :
  length (Chat.slice_last n l) = n `min` length l.
Proof. unfold Chat.slice_last. rewrite length_drop. lia. Qed.

Lemma slice_last_suffix {A : Type} (n : nat) (l : list A) :
  Chat.slice_last n l `suffix_of` l.
Proof. apply suffix_drop. Qed.

Lemma slice_last_short {A : Type} (n : nat) (l : list A) :
  length l ≤ n → Chat.slice_last n l = l.
Proof.
  intros Hshort. unfold Chat.slice_last.
  by replace (length l - n) with 0 by lia.
Qed.

Lemma slice_last_snoc {A : Type} (n : nat) (l : list A) (x : A) :
  0 < n → last (Chat.slice_last n (l ++ [x])) = Some x.
Proof.
  intros Hn. unfold Chat.slice_last. rewrite length_app. cbn [length].
  rewrite drop_app_le by lia. apply last_snoc.
Qed.

Lemma truthy_Some (text0 : string) : text0 ≠ "" → truthy (Some text0) = true.
Proof.
  intros Hne. cbn. apply negb_true_iff.
  destruct (text0 === "") eqn:Heq; [|done]. by apply str_eq_true in Heq.
Qed.

(** X14: what [persistMessages] stores comes back on the next first
    render. With owner and repository present, the messages restored
    after a persist are the last 50 of those persisted, in order (all of
    them when there are at most 50); a share link restores nothing. *)
Theorem persisted_messages_restore
    (o r : string) (msgs : list Chat.Message) (st : Chat.Storage) :
  o ≠ "" → r ≠ "" →
  let st' := Chat.persistMessages (Some o) (Some r) msgs st in
  Chat.restored_messages (Some o) (Some r) false st' = Chat.slice_last 50 msgs
  ∧ length (Chat.slice_last 50 msgs) = 50 `min` length msgs
  ∧ Chat.slice_last 50 msgs `suffix_of` msgs
  ∧ (length msgs ≤ 50 →
     Chat.restored_messages (Some o) (Some r) false st' = msgs)
  ∧ Chat.restored_messages (Some o) (Some r) true st' = [].
Proof.
  intros Ho Hr st'.
  assert (Chat.chat_messages st' = Some (Chat.slice_last 50 msgs)) as Hstored.
  { subst st'. unfold Chat.persistMessages.
    rewrite (truthy_Some o Ho), (truthy_Some r Hr). cbn.
    by destruct (Chat.recent_chats st). }
  assert (Chat.restored_messages (Some o) (Some r) false st'
          = Chat.slice_last 50 msgs) as Hback.
  { unfold Chat.restored_messages.
    rewrite (truthy_Some o Ho), (truthy_Some r Hr), Hstored. cbn.
    destruct (Chat.slice_last 50 msgs); by cbn. }
  split; [exact Hback|]. split; [apply slice_last_length|].
  split; [apply slice_last_suffix|]. split.
  - intros Hshort. by rewrite Hback, slice_last_short.
  - unfold Chat.restored_messages.
    by rewrite (truthy_Some o Ho), (truthy_Some r Hr).
Qed.

(** X15: [persistMessages] keeps [recent_chats] in step: the entries of
    this repository get [messageCount = min 50 (number of messages)],
    every other entry, the order and the length are unchanged, and an
    absent list stays absent; without an owner or a repository (absent
    or empty) it stores nothing at all. *)
Theorem persistMessages_counts
    (o r : option string) (msgs : list Chat.Message) (st : Chat.Storage) :
  (truthy o = true → truthy r = true →
   Chat.recent_chats (Chat.persistMessages o r msgs st)
   = (fun chats : list Chat.RecentChat =>
        (fun c : Chat.RecentChat =>
           if Chat.same_repo o r c
           then Chat.with_count (50 `min` length msgs) c else c) <$> chats)
     <$> Chat.recent_chats st)
  ∧ (truthy o = false ∨ truthy r = false →
     Chat.persistMessages o r msgs st = st).
Proof.
  split.
  - intros Ho Hr. unfold Chat.persistMessages. rewrite Ho, Hr. cbn.
    destruct (Chat.recent_chats st); cbn; [|done].
    by rewrite slice_last_length.
  - intros Hmissing. unfold Chat.persistMessages.
    by destruct Hmissing as [-> | ->]; rewrite ?orb_true_r.
Qed.

(** X16: [addMessage] appends exactly the new message, and with owner and
    repository present the stored conversation is then the last 50
    messages of the page, ending with the new one. *)
Theorem addMessage_persists_newest
    (o r text0 : string) (who : Chat.Role) (p : Chat.Page) :
  o ≠ "" → r ≠ "" →
  let p' := Chat.addMessage (Some o) (Some r) text0 who p in
  Chat.messages p' = Chat.messages p ++ [Chat.mkMessage text0 who]
  ∧ Chat.chat_messages (Chat.storage p')
    = Some (Chat.slice_last 50 (Chat.messages p'))
  ∧ (∃ stored,
       Chat.chat_messages (Chat.storage p') = Some stored
       ∧ last stored = Some (Chat.mkMessage text0 who)
       ∧ length stored ≤ 50).
Proof.
  intros Ho Hr p'. subst p'. unfold Chat.addMessage. cbn.
  assert (Chat.chat_messages
            (Chat.persistMessages (Some o) (Some r)
               (Chat.messages p ++ [Chat.mkMessage text0 who])
               (Chat.storage p))
          = Some (Chat.slice_last 50
                    (Chat.messages p ++ [Chat.mkMessage text0 who])))
    as Hstored.
  { unfold Chat.persistMessages.
    rewrite (truthy_Some o Ho), (truthy_Some r Hr). cbn.
    by destruct (Chat.recent_chats (Chat.storage p)). }
  split; [done|]. split; [exact Hstored|].
  eexists. split; [exact Hstored|]. split.
  - apply slice_last_snoc. lia.
  - rewrite slice_last_length. lia.
Qed.


(** ** The recent chats *)










(** ** Sending from the chat page *)

Lemma slice_to_idempotent (n : nat) (data : string) :
  slice_to n (slice_to n data) = slice_to n data.
Proof. apply slice_to_short. rewrite slice_to_length. lia. Qed.

Lemma sendMessage_open (message : string) (ws : nat) (w : WebSocket)
    (s : Provider) :
  socket s = Some ws → sockets s !! ws = Some w → readyState w = OPEN →
  sent <$> sockets (sendMessage message s) !! ws
  = Some (sent w ++ [slice_to MAX_MESSAGE_LENGTH message]).
Proof.
  intros Hsock Hw Hopen. unfold sendMessage, is_open, ws_readyState.
  rewrite Hsock, Hw. cbn [fmap option_fmap option_map]. rewrite Hopen.
  unfold seq, ws_send. cbn [sockets set_sockets setSuggestions].
  rewrite list_lookup_alter_eq, Hw. cbn. unfold sending. by rewrite Hopen.
Qed.

Lemma sendMessage_shut (message : string) (s : Provider) :
  (socket s = None ∨ ∃ ws, socket s = Some ws ∧ is_open ws s = false) →
  sendMessage message s = s.
Proof.
  intros [Hnone|(ws & Hsock & Hshut)]; unfold sendMessage.
  - by rewrite Hnone.
  - by rewrite Hsock, Hshut.
Qed.

(** X18: [handleSend] does nothing when the trimmed input is empty, the
    page is not connected, or a turn is loading, processing or
    streaming. Otherwise it shows one user message, sets [isLoading],
    clears the input and the mode, and hands the text to [sendMessage].
    With no mode active, the frame an open socket gets is exactly the
    text shown: the first 10,000 characters of the trimmed input. With a
    mode active the tag [[MODE:mode] ] is put in front before
    [sendMessage] cuts at 10,000 characters, so the frame is the first
    10,000 characters of tag and text together. When the held socket is
    not open the message is shown and [isLoading] set, and nothing is
    sent. *)
Theorem handleSend_shows_and_sends
    (o r : option string) (p : Chat.Page) (s : Provider) :
  let trimmed := Chat.trim (Chat.inputValue p) in
  let blocked :=
    (trimmed === "") || negb (isConnected s) || Chat.isLoading p
    || isProcessing s || isStreaming s in
  let message := slice_to 10000 trimmed in
  let p' := fst (Chat.handleSend o r p s) in
  let s' := snd (Chat.handleSend o r p s) in
  (blocked = true → Chat.handleSend o r p s = (p, s))
  ∧ (blocked = false →
     length (Chat.messages p') = S (length (Chat.messages p))
     ∧ Chat.isLoading p' = true
     ∧ Chat.inputValue p' = ""
     ∧ Chat.activeMode p' = None)
  ∧ (blocked = false → truthy (Chat.activeMode p) = false →
     Chat.messages p' = Chat.messages p ++ [Chat.mkMessage message Chat.user]
     ∧ ∀ ws w,
         socket s = Some ws → sockets s !! ws = Some w → readyState w = OPEN →
         sent <$> sockets s' !! ws = Some (sent w ++ [message]))
  ∧ (blocked = false →
     ∀ mode ws w,
       Chat.activeMode p = Some mode → mode ≠ "" →
       socket s = Some ws → sockets s !! ws = Some w → readyState w = OPEN →
       sent <$> sockets s' !! ws
       = Some (sent w
               ++ [slice_to 10000 ("[MODE:" +:+ mode +:+ "] " +:+ message)]))
  ∧ (blocked = false →
     (socket s = None ∨ ∃ ws, socket s = Some ws ∧ is_open ws s = false) →
     s' = s).
Proof.
  intros trimmed blocked message p' s'. subst p' s'.
  unfold Chat.handleSend. fold trimmed. fold blocked. fold message.
  destruct blocked eqn:Hblocked.
  { split; [done|]. by repeat split. }
  split; [done|]. cbn [fst snd]. split; [|split; [|split]].
  - intros _. unfold Chat.addMessage. cbn.
    rewrite length_app. cbn. split; [lia|done].
  - intros _ Hmode. rewrite Hmode. split; [done|].
    intros ws w Hsock Hw Hopen.
    rewrite (sendMessage_open message ws w s Hsock Hw Hopen).
    subst message. unfold MAX_MESSAGE_LENGTH.
    by rewrite slice_to_idempotent.
  - intros _ mode ws w Hmode Hne Hsock Hw Hopen.
    rewrite Hmode, (truthy_Some mode Hne). cbn [default from_option id].
    by rewrite (sendMessage_open _ ws w s Hsock Hw Hopen).
  - intros _ Hshut. by apply sendMessage_shut.
Qed.

(** X19: the click handler of a follow-up suggestion (the button is
    rendered while the page is not loading) shows the suggestion as a
    user message, sets [isLoading] and hands it to [sendMessage]; unlike
    [handleSend] it tests neither [isConnected] nor [isProcessing] nor
    [isStreaming]. An open socket gets the first 10,000 characters and
    the suggestion list is cleared; without an open socket nothing is
    sent and the list stays, while the message is shown all the same. *)
Theorem send_suggestion_shows_and_sends
    (o r : option string) (suggestion : string) (p : Chat.Page)
    (s : Provider) :
  let p' := fst (Chat.send_suggestion o r suggestion p s) in
  let s' := snd (Chat.send_suggestion o r suggestion p s) in
  Chat.messages p'
  = Chat.messages p ++ [Chat.mkMessage suggestion Chat.user]
  ∧ Chat.isLoading p' = true
  ∧ (∀ ws w,
       socket s = Some ws → sockets s !! ws = Some w → readyState w = OPEN →
       suggestions s' = []
       ∧ sent <$> sockets s' !! ws
         = Some (sent w ++ [slice_to 10000 suggestion]))
  ∧ ((socket s = None ∨ ∃ ws, socket s = Some ws ∧ is_open ws s = false) →
     s' = s).
Proof.
  intros p' s'. subst p' s'. unfold Chat.send_suggestion. cbn [fst snd].
  split; [done|]. split; [done|]. split.
  - intros ws w Hsock Hw Hopen.
    split; [|exact (sendMessage_open suggestion ws w s Hsock Hw Hopen)].
    unfold sendMessage.
    by rewrite Hsock, (proj2 (is_open_lookup ws w s Hw) Hopen).
  - apply sendMessage_shut.
Qed.

End ChatProperties.

(** ** The statements on sample runs *)

Section Samples.

Local Existing Instance parse_throws.

Lemma plain_frame_sets_lastMessage_witness :
  spec_rules_1_11 "Hello" = false
  ∧ isProcessing (onmessage 0 "Hello" (run opened initial)) = true.
Proof.
  split; [reflexivity|].
  rewrite (proj2 (plain_frame_sets_lastMessage 0 "Hello"
                    (run opened initial) eq_refl)).
  reflexivity.
Defined.

Lemma ping_frame_sets_lastMessage :
  let s := run opened initial in
  lastMessage s = None
  ∧ lastMessage (step (WsMessage 0 "ping") s) = Some "ping".
Proof. split; reflexivity. Qed.

Lemma plain_frame_keeps_isProcessing :
  let s := run opened initial in
  spec_rules_1_11 "Hello" = false
  ∧ isProcessing s = true
  ∧ isProcessing (step (WsMessage 0 "Hello") s) = true.
Proof. repeat split; reflexivity. Qed.

Lemma indexing_failed_skips_lastMessage :
  let s := step (WsMessage 0 "error:indexing_failed") (run opened initial) in
  lastMessage s = None
  ∧ lastMessage s ≠ Some "error:indexing_failed"
  ∧ errorMessage s = Some "Failed to build knowledge base. Please try again.".
Proof.
  intros s. subst s.
  split; [reflexivity | split; [discriminate | reflexivity]].
Qed.

Lemma fatal_frame_then_close_arms_reconnect_witness :
  let s := run opened initial in
  let s2 := onclose 0 (onmessage 0 "error:repo_not_found" s) in
  isReconnecting s2 = true
  ∧ timers s2 !! 3 = Some (mkTimer (ReconnectTick 0) 1000 false).
Proof.
  pose proof (fatal_frame_then_close_arms_reconnect 0 "error:repo_not_found"
                (run opened initial)) as H.
  destruct H as (_ & _ & Hre & _ & Htimer).
  - unfold connection_fatal. set_solver.
  - reflexivity.
  - by eexists.
  - vm_compute. lia.
  - split; [exact Hre | exact Htimer].
Defined.


Lemma explicit_open_keeps_attempts :
  let s := run (three_failed_attempts
                  ++ [CallConnect "octocat" "hello-world" None]) initial in
  let s' := step (WsOpen 4) s in
  ws_readyState 4 s = Some CONNECTING
  ∧ reconnectAttemptsRef s = 3
  ∧ ws_readyState 4 s' = Some OPEN
  ∧ isConnected s' = true
  ∧ reconnectAttemptsRef s' = 3.
Proof. repeat split; reflexivity. Qed.

Lemma open_resets_attempts_of_reconnect_only_witness :
  let s := run (opened ++ [WsMessage 0 "repo_processed"; WsClose 0; TimerDue 3])
             initial in
  reconnectAttemptsRef s = 1
  ∧ reconnectAttemptsRef (step (WsOpen 1) s) = 0
  ∧ isReconnecting (step (WsOpen 1) s) = false.
Proof.
  intros s. split; [reflexivity|].
  exact (proj2 (open_resets_attempts_of_reconnect_only 1
                  (mkWebSocket CONNECTING []
                     (mkConnParams "octocat" "hello-world" None) 4 Pending
                     ReconnectChain None)
                  s eq_refl eq_refl eq_refl)).
Defined.

Lemma stream_frames_finalize_witness :
  let s := run opened initial in
  let s' := feed 0 [ "status:cloning"; "stream:chunk:Hello ";
                     "stream:chunk:world"; "stream:end" ] s in
  truthy (streamingContent s) = false
  ∧ lastMessage s' = Some "Hello world"
  ∧ isStreaming s' = false
  ∧ streamingContent s' = None.
Proof.
  intros s s'. split; [reflexivity|].
  exact (proj1 (stream_frames_finalize 0 s eq_refl)).
Defined.

Lemma sendMessage_sends_truncated_witness :
  let s := run (opened ++ [WsMessage 0 "repo_processed"]) initial in
  String.length long_message = 15000
  ∧ sent <$> sockets (sendMessage long_message s) !! 0
      = Some [repeat_char "a" 10000].
Proof.
  intros s. split; [vm_compute; reflexivity|].
  destruct (proj1 (sendMessage_sends_truncated long_message s) 0
              (mkWebSocket OPEN []
                 (mkConnParams "octocat" "hello-world" None) 1 Fulfilled
                 Caller None)
              eq_refl eq_refl eq_refl) as (_ & Hsent & _).
  rewrite Hsent. vm_compute. reflexivity.
Defined.




Lemma connect_rejects_invalid_witness :
  ∃ message,
    connect "octocat/evil" "hello-world" None initial
    = (initial, Threw message).
Proof.
  apply connect_rejects_invalid; [reflexivity|].
  right. right. left. exists "/"%char. split; [|reflexivity].
  left. cbn. tauto.
Defined.

Lemma connect_creates_one_socket_witness :
  let s := run (opened ++ [WsMessage 0 "repo_processed"]) initial in
  let s' := fst (connect "octocat" "spoon-knife" None s) in
  ws_readyState 0 s = Some OPEN
  ∧ snd (connect "octocat" "spoon-knife" None s) = Created 1
  ∧ ws_readyState 0 s' = Some CLOSING
  ∧ ws_readyState 1 s' = Some CONNECTING
  ∧ length (sockets s') = 2.
Proof.
  intros s s'.
  assert (valid_params (mkConnParams "octocat" "spoon-knife" None)) as Hvalid.
  { repeat split; cbn; lia. }
  destruct (connect_creates_one_socket "octocat" "spoon-knife" None s
              eq_refl Hvalid) as (Hout & _).
  split; [reflexivity|]. split; [exact Hout|]. by repeat split.
Defined.

Lemma concurrent_connect_dropped_witness :
  let s' := fst (connect "octocat" "hello-world" None initial) in
  connect "octocat" "spoon-knife" None s' = (s', Returned)
  ∧ length (sockets s') = 1.
Proof.
  intros s'.
  assert (valid_params (mkConnParams "octocat" "hello-world" None)) as Hvalid.
  { repeat split; cbn; lia. }
  destruct (concurrent_connect_dropped "octocat" "hello-world" "octocat"
              "spoon-knife" None None initial eq_refl Hvalid) as [Hdrop _].
  split; [exact Hdrop|reflexivity].
Defined.

Lemma failed_stream_promotes_nothing_witness :
  let s := run opened initial in
  let s' := feed 0 [ chunk_frame "Partial "; chunk_frame "answ";
                     "error:timeout"; "stream:end" ] s in
  lastMessage s' = None ∧ streamingContent s' = None ∧ isStreaming s' = false.
Proof.
  intros s s'.
  assert ("error:timeout" ∈ chat_recoverable) as Htok
    by (unfold chat_recoverable; set_solver).
  exact (failed_stream_promotes_nothing 0 ["Partial "; "answ"]
           "error:timeout" s Htok).
Defined.

Lemma disconnect_stops_reconnects_witness :
  let s := run (opened ++ [WsMessage 0 "repo_processed"; WsClose 0]) initial in
  let es := [ TimerDue 3; WsError 0; CallSendMessage "hello"; WsClose 0 ] in
  is_Some (timers s !! 3)
  ∧ timers (run es (disconnect s)) = ∅
  ∧ should_reconnect (run es (disconnect s)) = false.
Proof.
  intros s es.
  assert (reconnect_timer_tracked s) as Htracked.
  { intros h t ws Hh Hcb.
    assert (timers s = {[ 3 := mkTimer (ReconnectTick 0) 1000 false ]}) as Hall
      by (vm_compute; reflexivity).
    rewrite Hall in Hh. apply lookup_singleton_Some in Hh as [<- _].
    reflexivity. }
  split; [eexists; vm_compute; reflexivity|].
  split; [vm_compute; reflexivity|].
  assert (forallb (fun e => negb (is_connect e)) es = true) as Hes
    by (vm_compute; reflexivity).
  revert Htracked Hes. generalize s es. intros u us Htracked Hes.
  exact (proj2 (proj2 (proj2 (disconnect_stops_reconnects us u Htracked Hes)))).
Defined.

Lemma failed_reconnect_attempt_witness :
  let s := run (opened ++ [ WsMessage 0 "repo_processed"; WsClose 0;
                            TimerDue 3; WsError 1; WsClose 1;
                            TimerDue 5; WsError 2; WsClose 2;
                            TimerDue 7 ]) initial in
  let s' := run [WsError 3; WsClose 3] s in
  reconnectAttemptsRef s = 3
  ∧ isReconnecting s = true
  ∧ isReconnecting s' = false
  ∧ nextTimer s' = nextTimer s.
Proof.
  intros s s'. subst s'.
  pose (w := mkWebSocket CONNECTING []
               (mkConnParams "octocat" "hello-world" None) 8 Pending
               ReconnectChain None).
  assert (reconnectAttemptsRef s = 3) as Hcap by (vm_compute; reflexivity).
  assert (isReconnecting s = true) as Hre by (vm_compute; reflexivity).
  assert (sockets s !! 3 = Some w) as Hw by (vm_compute; reflexivity).
  assert (intentionalCloseRef s = false) as Hflag
    by (vm_compute; reflexivity).
  assert (is_Some (connParamsRef s)) as Hparams
    by (eexists; vm_compute; reflexivity).
  revert Hcap Hre Hw Hflag Hparams. generalize s.
  intros u Hcap Hre Hw Hflag Hparams.
  destruct (failed_reconnect_attempt 3 w u Hw eq_refl eq_refl eq_refl Hflag
              Hparams) as (_ & _ & _ & Hend).
  rewrite Hcap in Hend. change (3 <? 3) with false in Hend.
  destruct Hend as [Hoff Hsame]. by repeat split.
Defined.


Lemma persisted_messages_restore_witness :
  let reply := Chat.mkMessage "Sure." Chat.assistant in
  let msgs := Chat.mkMessage "Hi" Chat.user :: replicate 50 reply in
  let st' :=
    Chat.persistMessages (Some "octocat") (Some "hello-world") msgs
      (Chat.mkStorage None None) in
  "octocat" ≠ "" ∧ "hello-world" ≠ ""
  ∧ Chat.restored_messages (Some "octocat") (Some "hello-world") false st'
    = replicate 50 reply.
Proof.
  intros reply msgs st'.
  assert ("octocat" ≠ "") as Ho by discriminate.
  assert ("hello-world" ≠ "") as Hr by discriminate.
  split; [exact Ho|]. split; [exact Hr|].
  destruct (persisted_messages_restore "octocat" "hello-world" msgs
              (Chat.mkStorage None None) Ho Hr) as (Hback & _).
  fold st' in Hback. rewrite Hback. vm_compute. reflexivity.
Defined.

Lemma addMessage_persists_newest_witness :
  let p := Chat.mkPage [] "Hi" None false (Chat.mkStorage None None) false in
  let p' :=
    Chat.addMessage (Some "octocat") (Some "hello-world") "Hi" Chat.user p in
  "octocat" ≠ "" ∧ "hello-world" ≠ ""
  ∧ Chat.chat_messages (Chat.storage p')
    = Some [Chat.mkMessage "Hi" Chat.user].
Proof.
  intros p p'.
  assert ("octocat" ≠ "") as Ho by discriminate.
  assert ("hello-world" ≠ "") as Hr by discriminate.
  split; [exact Ho|]. split; [exact Hr|].
  destruct (addMessage_persists_newest "octocat" "hello-world" "Hi"
              Chat.user p Ho Hr) as (Hmsgs & Hstored & _).
  fold p' in Hmsgs, Hstored. rewrite Hstored, Hmsgs. reflexivity.
Defined.




End Samples.
